(** * MovieLens-AI: a shallow embedding of the training pipeline

    - [src/01_build_mf.py]: interaction pruning, dense index maps and the
      confidence matrix handed to ALS (module [BuildMF]);
    - [src/05_build_features.py]: per-user example sampling with hard and
      easy negatives (module [BuildFeatures]);
    - [src/06_train_lgbm.py]: the per-group MAP@k / NDCG@k evaluation
      (module [TrainLGBM]), and the split loading and column bookkeeping
      of [load_split] and [lgb_dataset] (module [TrainLGBMLoad]).

    Ratings, scores and confidences are kept as exact rationals [Q]; the
    float32/float64 rounding of numpy is not modelled.  The log2 discount
    of NDCG is a real number. *)

From Stdlib Require Import ZArith QArith Lia Lra List Reals Sorted.
From stdpp Require Import base gmap list strings.

Open Scope Z_scope.

(** ** Common data *)

(** One row of a ratings CSV: [userId, movieId, rating, timestamp]. *)
Record rating_row := mkRating {
  userId : Z;
  movieId : Z;
  rating : Q;
  timestamp : Z
}.

(** Python exceptions that the modelled code can raise. *)
Inductive exn := TypeError | ValueError | KeyError | AssertionError.

Inductive result (A : Type) :=
| Ok (a : A)
| Err (e : exn).
Arguments Ok {A} a.
Arguments Err {A} e.

Definition result_bind {A B} (k : A -> result B) (m : result A) : result B :=
  match m with Ok a => k a | Err e => Err e end.
Global Instance result_ret : MRet result := @Ok.
Global Instance result_mbind : MBind result := @result_bind.

(** Python's [l[:n]]: a negative [n] drops the last [-n] elements. *)
Definition py_take {A} (n : Z) (l : list A) : list A :=
  if 0 <=? n then firstn (Z.to_nat n) l
  else firstn (Z.to_nat (Z.of_nat (length l) + n)) l.

(** A stable insertion sort by a key: an element is put before the first
    element whose key is not smaller.  numpy's default sort kind
    ("quicksort", an introsort) sorts arrays of at most 16 elements by
    insertion sort, which keeps equal keys in index order; this is that
    path. *)
Section StableSort.
Variable A K : Type.
Variable key : A -> K.
Variable leb : K -> K -> bool.

Fixpoint insert_by (x : A) (l : list A) : list A :=
  match l with
  | [] => [x]
  | y :: l' => if leb (key x) (key y) then x :: y :: l' else y :: insert_by x l'
  end.

Fixpoint sort_by (l : list A) : list A :=
  match l with
  | [] => []
  | x :: l' => insert_by x (sort_by l')
  end.
End StableSort.
Arguments insert_by {A K} key leb x l.
Arguments sort_by {A K} key leb l.

(** numpy's [argsort] with its default kind ("quicksort") on a 1-D
    array: the positions of the array in ascending order of value.  numpy
    documents nothing about the order of equal values, and it varies: an
    insertion sort for at most 16 elements, an introsort beyond, a
    vectorised sort on AVX-512 builds.  The model takes the argsort as a
    parameter with exactly the documented guarantee.  pandas'
    [sort_values] with its default kind is [take] of this argsort. *)
Class ArgSort := {
  argsort : list Q -> list nat;
  argsort_perm : forall xs, argsort xs ≡ₚ seq 0 (length xs);
  argsort_sorted : forall xs, Sorted (fun i j => (nth i xs 0 <= nth j xs 0)%Q) (argsort xs)
}.

(** [pd.unique]: distinct values in order of first appearance. *)
Fixpoint unique_Z (seen : list Z) (l : list Z) : list Z :=
  match l with
  | [] => []
  | x :: l' => if existsb (Z.eqb x) seen then unique_Z seen l'
               else x :: unique_Z (x :: seen) l'
  end.

(** [df.groupby(key)] with pandas' default [sort=True]: the distinct keys
    in ascending order, each with its rows in their original order. *)
Definition group_by {A} (key : A -> Z) (l : list A) : list (Z * list A) :=
  map (fun u => (u, List.filter (fun x => key x =? u) l))
      (sort_by (fun x : Z => x) Z.leb (unique_Z [] (map key l))).

Definition zsum (l : list Z) : Z := fold_right Z.add 0 l.

(** ** 01_build_mf.py *)
Module BuildMF.

(** [ratings["userId"].value_counts()[u]]. *)
Definition count_user (rs : list rating_row) (u : Z) : Z :=
  Z.of_nat (length (List.filter (fun r => userId r =? u) rs)).
Definition count_item (rs : list rating_row) (i : Z) : Z :=
  Z.of_nat (length (List.filter (fun r => movieId r =? i) rs)).

(** Step 2, first block: [if args.min_user_cnt > 0: ... keep_u ...]. *)
Definition prune_users (min_user_cnt : Z) (rs : list rating_row) :=
  if 0 <? min_user_cnt
  then List.filter (fun r => min_user_cnt <=? count_user rs (userId r)) rs
  else rs.

(** Step 2, second block: the counts are taken over [ratings] as it is
    after the user filter (the variable is reassigned). *)
Definition prune_items (min_item_cnt : Z) (rs : list rating_row) :=
  if 0 <? min_item_cnt
  then List.filter (fun r => min_item_cnt <=? count_item rs (movieId r)) rs
  else rs.

(** [ratings[ratings.movieId.isin(all_item_ids)]]. *)
Definition keep_known (all_item_ids : list Z) (rs : list rating_row) :=
  List.filter (fun r => existsb (Z.eqb (movieId r)) all_item_ids) rs.

(** The ratings that reach step 3 of [main]. *)
Definition kept_ratings (min_user_cnt min_item_cnt : Z)
    (all_item_ids : list Z) (rs : list rating_row) : list rating_row :=
  keep_known all_item_ids (prune_items min_item_cnt (prune_users min_user_cnt rs)).

(** [{x: i for i, x in enumerate(xs)}]: a later duplicate overwrites. *)
Fixpoint enum_insert (i : nat) (xs : list Z) (m : gmap Z nat) : gmap Z nat :=
  match xs with
  | [] => m
  | x :: xs' => enum_insert (S i) xs' (<[x := i]> m)
  end.
Definition enumerate_map (xs : list Z) : gmap Z nat := enum_insert 0 xs ∅.

(** Metadata item ids: [read_csv(...).drop_duplicates("id")]. *)
Definition item_ids_of (raw_ids : list Z) : list Z := unique_Z [] raw_ids.

Definition user2row_of (rs : list rating_row) : gmap Z nat :=
  enumerate_map (unique_Z [] (map userId rs)).

(** [{int(v): int(k) for k, v in m.items()}]: the reverse maps [row2user]
    and [col2item] of the mappings file.  A later pair overwrites an
    earlier one with the same value; the pairs are visited in key order
    here and in insertion order in Python, which gives the same dict when
    the values are distinct. *)
Definition invert_map (m : gmap Z nat) : gmap nat Z :=
  fold_left (fun acc (kv : Z * nat) => <[kv.2 := kv.1]> acc) (map_to_list m) ∅.






Definition qsum (l : list Q) : Q := fold_right Qplus 0%Q l.


(** The pruning as the spec sentence describes it: both counts over the
    raw interactions, independently (for comparison with
    [kept_ratings] only). *)
Definition spec_independent_prune (min_user_cnt min_item_cnt : Z)
    (rs : list rating_row) : list rating_row :=
  List.filter (fun r => (min_user_cnt <=? count_user rs (userId r))
                        && (min_item_cnt <=? count_item rs (movieId r))) rs.
End BuildMF.

(** ** 06_train_lgbm.py: [eval_metrics] *)
Module TrainLGBM.
Import BuildMF.

(** A row of [df_pred]: the columns [userId], [label] and [pred]. *)
Record pred_row := mkPred { p_user : Z; p_label : Z; p_pred : Q }.

(** [to_numpy(dtype=np.int8)]: numpy's cast wraps an integer modulo 256
    into [-128, 127]. *)
Definition int8 (x : Z) : Z := (x + 128) mod 256 - 128.

(** [order = y_pred.argsort()[::-1]], for the argsort numpy provides. *)
Definition rank_order `{AS : ArgSort} (preds : list Q) : list nat := rev (argsort preds).


(** [np.cumsum]. *)
Fixpoint cumsum_from (acc : Z) (l : list Z) : list Z :=
  match l with
  | [] => []
  | x :: l' => (acc + x) :: cumsum_from (acc + x) l'
  end.

(** [np.arange(k) + 1]. *)
Definition arange1 (k : Z) : list Z :=
  map (fun i => Z.of_nat i + 1) (seq 0 (Z.to_nat k)).

(** An elementwise numpy operation on two 1-D arrays: equal lengths, or
    one side of length 1 is broadcast; any other pair of shapes raises
    [ValueError] ("operands could not be broadcast together"). *)
Definition bcast {A B C} (f : A -> B -> C) (a : list A) (b : list B) : result (list C) :=
  if Nat.eqb (length a) (length b) then Ok (zip_with f a b)
  else match a, b with
       | [x], _ => Ok (map (f x) b)
       | _, [y] => Ok (map (fun x => f x y) a)
       | _, _ => Err ValueError
       end.

(** The MAP@k block of [eval_metrics] for one group. *)
Definition map_at_k (k : Z) (y_true : list Z) (topk : list nat) : result Q :=
  let hits := map (fun i => nth i y_true 0) topk in
  if zsum hits =? 0 then Ok 0%Q
  else
    let cumsum := cumsum_from 0 hits in
    precision_at_i ← bcast (fun c d => inject_Z c / inject_Z d)%Q cumsum (arange1 k);
    weighted ← bcast (fun p h => p * inject_Z h)%Q precision_at_i hits;
    Ok (qsum weighted / inject_Z (Z.min (zsum y_true) k))%Q.

(** [_dcg]: [sum(rels / log2(arange(2, n + 2)))]. *)
Definition log2R (x : R) : R := (ln x / ln 2)%R.
Fixpoint dcg_from (i : nat) (rels : list Z) : R :=
  match rels with
  | [] => 0%R
  | r :: rels' => (IZR r / log2R (INR (i + 2)) + dcg_from (S i) rels')%R
  end.
Definition _dcg (rels : list Z) : R := dcg_from 0 rels.

(** The NDCG@k block of [eval_metrics] for one group. *)
Definition ndcg_at_k (k : Z) (y_true : list Z) (topk : list nat) : R :=
  let dcg := _dcg (map (fun i => nth i y_true 0) topk) in
  let ideal_topk := py_take k (rev (sort_by (fun x : Z => x) Z.leb y_true)) in
  let idcg := _dcg ideal_topk in
  if Rlt_dec 0 idcg then (dcg / idcg)%R else 0%R.

Section Eval.
Context `{AS : ArgSort}.

(** The body of the [for] loop of [eval_metrics] for one group.  The sums
    of the [int8] array ([y_true.sum()], [np.cumsum]) are taken in the
    platform integer, int64; they are exact here. *)
Definition eval_group (k : Z) (g : list pred_row) : result (Q * R) :=
  let y_true := map (fun r => int8 (p_label r)) g in
  let y_pred := map p_pred g in
  if zsum y_true =? 0 then Ok (0%Q, 0%R)
  else
    let topk := py_take k (rank_order y_pred) in
    ap ← map_at_k k y_true topk;
    Ok (ap, ndcg_at_k k y_true topk).

Fixpoint eval_groups (k : Z) (gs : list (Z * list pred_row)) : result (list (Q * R)) :=
  match gs with
  | [] => Ok []
  | (_, g) :: gs' => s ← eval_group k g; ss ← eval_groups k gs'; Ok (s :: ss)
  end.

(** [float(np.mean(xs))]: [None] stands for the [nan] numpy returns on
    an empty list. *)
Definition mean_Q (l : list Q) : option Q :=
  match l with
  | [] => None
  | _ :: _ => Some (qsum l / inject_Z (Z.of_nat (length l)))%Q
  end.
Definition mean_R (l : list R) : option R :=
  match l with
  | [] => None
  | _ :: _ => Some (fold_right Rplus 0 l / INR (length l))%R
  end.

(** [eval_metrics(df_pred, k)]: per-group scores, then their means. *)
Definition eval_metrics (k : Z) (df_pred : list pred_row) : result (option Q * option R) :=
  scores ← eval_groups k (group_by p_user df_pred);
  Ok (mean_Q (map fst scores), mean_R (map snd scores)).
End Eval.
End TrainLGBM.

(** ** 05_build_features.py *)
Module BuildFeatures.
Import BuildMF.

(** The part of [np.random.Generator] the sampler uses:
    [rng.choice(a, 1)] draws an index below [len(a)] and advances the
    generator state.  [default_rng] is [np.random.default_rng(seed)]. *)
Class Rng (G : Type) := {
  default_rng : Z -> G;
  rand_index : G -> nat -> nat * G;
  rand_index_lt : forall g n, (0 < n)%nat -> (fst (rand_index g n) < n)%nat
}.

(** A row of [movies_processed.csv], indexed by [id]. *)
Record meta := mkMeta {
  runtime_z : Q; lang_idx : Z; popularity : Q; vote_average : Q; vote_count : Z
}.

(** The dictionary built by [make_row]. *)
Record feat_row := mkRow {
  f_userId : Z; f_movieId : Z; f_label : Z;
  f_runtime_z : Q; f_lang_idx : Z; f_popularity : Q; f_vote_avg : Q; f_vote_cnt : Z
}.

(** The columns of [pd.DataFrame(rows)]: the keys of the dict built by
    [make_row], in order. *)
Definition feat_row_columns : list string :=
  ["userId"%string; "movieId"%string; "label"%string; "runtime_z"%string;
   "lang_idx"%string; "popularity"%string; "vote_avg"%string; "vote_cnt"%string].

Definition make_row (uid item label : Z) (m : option meta) : option feat_row :=
  match m with
  | None => None
  | Some m => Some (mkRow uid item label (runtime_z m) (lang_idx m) (popularity m)
                          (vote_average m) (vote_count m))
  end.

(** A call [make_row(uid, item, label, meta, *extra)]: [make_row]
    declares four parameters, so Python raises [TypeError] as soon as
    [extra] is not empty. *)
Definition call_make_row (uid item label : Z) (m : option meta)
    (extra : list (option Z)) : result (option feat_row) :=
  match extra with
  | [] => Ok (make_row uid item label m)
  | _ :: _ => Err TypeError
  end.

(** Command-line parameters of [main]. *)
Record args := mkArgs { hard_neg : Z; easy_neg : Z; pos_thresh : Z; seed : Z }.

(** [ratings["movieId"].value_counts().index.values]: the distinct items
    by decreasing count (ties in order of first appearance). *)
Definition pop_items (ratings : list rating_row) : list Z :=
  sort_by (count_item ratings) (fun a b => b <=? a) (unique_Z [] (map movieId ratings)).

(** Probability that [rng.choice(a, 1)] returns [x]: without a [p]
    argument numpy draws the index uniformly. *)
Definition choice_prob (a : list Z) (x : Z) : Q :=
  (inject_Z (Z.of_nat (length (List.filter (Z.eqb x) a)))
   / inject_Z (Z.of_nat (length a)))%Q.

(** The draw the docstring of [sample_easy_neg] and the spec describe:
    probability proportional to the item's interaction count. *)
Definition popularity_prob (ratings : list rating_row) (x : Z) : Q :=
  (inject_Z (count_item ratings x) / inject_Z (Z.of_nat (length ratings)))%Q.

(** [pos_items = grp[grp["rating"] >= pos_thresh].sort_values("timestamp")]:
    [sort_values] takes the rows at the positions of numpy's argsort of
    the timestamps (rows with equal timestamps in an unspecified order). *)
Definition pos_items_of `{AS : ArgSort} (pos_thresh : Z) (grp : list rating_row)
    : list rating_row :=
  let pos := List.filter (fun r => Qle_bool (inject_Z pos_thresh) (rating r)) grp in
  map (fun i => nth i pos (mkRating 0 0 0 0))
      (argsort (map (fun r => inject_Z (timestamp r)) pos)).

(** [set(grp["movieId"].values)]. *)
Definition seen_of (grp : list rating_row) : gset Z := list_to_set (map movieId grp).

(** The loop building [pos_rows]; [make_row] is called with the extra
    argument [ts]. *)
Fixpoint pos_rows_of (uid : Z) (movies : gmap Z meta) (pos : list rating_row)
    : result (list feat_row) :=
  match pos with
  | [] => Ok []
  | r :: pos' =>
      match movies !! movieId r with
      | Some m =>
          ro ← call_make_row uid (movieId r) 1 (Some m) [Some (timestamp r)];
          rest ← pos_rows_of uid movies pos';
          Ok (match ro with Some row => row :: rest | None => rest end)
      | None => pos_rows_of uid movies pos'
      end
  end.

(** [hard_neg = [i for i in cand_map.get(uid, []) if i not in seen_items
    and i in movies.index][:args.hard_neg]]. *)
Definition hard_negs (n : Z) (movies : gmap Z meta) (cand_map : gmap Z (list Z))
    (uid : Z) (seen : gset Z) : list Z :=
  py_take n (List.filter (fun i => negb (bool_decide (i ∈ seen))
                                   && bool_decide (is_Some (movies !! i)))
                         (default [] (cand_map !! uid))).

(** [[i for i in ids if i in movies.index]]. *)
Definition with_meta (movies : gmap Z meta) (ids : list Z) : list Z :=
  List.filter (fun i => bool_decide (is_Some (movies !! i))) ids.

(** The loop building [neg_rows]: [movies.loc[it]] raises [KeyError] on
    an id without metadata; [make_row] is called with the extra argument
    [None]. *)
Fixpoint neg_rows_of (uid : Z) (movies : gmap Z meta) (ids : list Z)
    : result (list feat_row) :=
  match ids with
  | [] => Ok []
  | it :: ids' =>
      m ← match movies !! it with Some m => Ok m | None => Err KeyError end;
      ro ← call_make_row uid it 0 (Some m) [None];
      rest ← neg_rows_of uid movies ids';
      Ok (match ro with Some row => row :: rest | None => rest end)
  end.

Section Sampler.
Context {G : Type} `{Rng G} `{AS : ArgSort}.

(** [int(rng.choice(pop_items, 1)[0])]. *)
Definition rng_choice (pool : list Z) (g : G) : Z * G :=
  let '(i, g') := rand_index g (length pool) in (nth i pool 0, g').

(** The [while len(out) < n] loop of [sample_easy_neg], as a big-step
    relation: a run that never leaves the loop has no derivation. *)
Inductive easy_loop (pool : list Z) (n : Z)
    : gset Z -> list Z -> G -> list Z -> G -> Prop :=
| easy_done seen out g :
    n <= Z.of_nat (length out) -> easy_loop pool n seen out g out g
| easy_again seen out g item g' res g'' :
    Z.of_nat (length out) < n -> rng_choice pool g = (item, g') -> item ∈ seen ->
    easy_loop pool n seen out g' res g'' ->
    easy_loop pool n seen out g res g''
| easy_take seen out g item g' res g'' :
    Z.of_nat (length out) < n -> rng_choice pool g = (item, g') -> item ∉ seen ->
    easy_loop pool n ({[item]} ∪ seen) (out ++ [item]) g' res g'' ->
    easy_loop pool n seen out g res g''.

(** [sample_easy_neg(seen, pop_items, n, rng)]: the returned list and
    the generator state after the call ([seen] is a copy at every call
    site, so its mutation is not observable). *)
Inductive sample_easy_neg (seen : gset Z) (pool : list Z) (n : Z) (g : G)
    : list Z -> G -> Prop :=
| sample_none : n = 0 \/ pool = [] -> sample_easy_neg seen pool n g [] g
| sample_run res g' :
    n <> 0 -> pool <> [] -> easy_loop pool n seen [] g res g' ->
    sample_easy_neg seen pool n g res g'.

(** Lines 137-154 of [main]: hard negatives, easy negatives, and the
    single fallback draw when both lists are empty. *)
Inductive sample_negatives (a : args) (movies : gmap Z meta)
    (cand_map : gmap Z (list Z)) (pool : list Z) (uid : Z) (seen : gset Z)
    : G -> list Z -> list Z -> G -> Prop :=
| negs_plain g easy_ids g' :
    sample_easy_neg seen pool (easy_neg a) g easy_ids g' ->
    (hard_negs (hard_neg a) movies cand_map uid seen <> []
     \/ with_meta movies easy_ids <> []) ->
    sample_negatives a movies cand_map pool uid seen g
      (hard_negs (hard_neg a) movies cand_map uid seen) (with_meta movies easy_ids) g'
| negs_fallback g easy_ids g' fallback g'' :
    sample_easy_neg seen pool (easy_neg a) g easy_ids g' ->
    hard_negs (hard_neg a) movies cand_map uid seen = [] ->
    with_meta movies easy_ids = [] ->
    sample_easy_neg seen pool 1 g' fallback g'' ->
    sample_negatives a movies cand_map pool uid seen g
      [] (with_meta movies fallback) g''.

(** Rows [main] writes for the user once [pos_rows] is built and the
    negatives are drawn ([None]: the user is skipped). *)
Definition emit_block (uid : Z) (movies : gmap Z meta) (pos_rows : list feat_row)
    (hard easy : list Z) : result (option (list feat_row)) :=
  neg_rows ← neg_rows_of uid movies (hard ++ easy);
  match neg_rows with
  | [] => Ok None
  | _ :: _ => Ok (Some (pos_rows ++ neg_rows))
  end.

(** One iteration of the user loop of [main]. *)
Inductive user_rows (a : args) (movies : gmap Z meta) (cand_map : gmap Z (list Z))
    (pool : list Z) (uid : Z) (grp : list rating_row)
    : G -> result (option (list feat_row)) -> G -> Prop :=
| user_no_pos g :
    pos_items_of (pos_thresh a) grp = [] ->
    user_rows a movies cand_map pool uid grp g (Ok None) g
| user_pos_raise g e :
    pos_items_of (pos_thresh a) grp <> [] ->
    pos_rows_of uid movies (pos_items_of (pos_thresh a) grp) = Err e ->
    user_rows a movies cand_map pool uid grp g (Err e) g
| user_no_meta g :
    pos_items_of (pos_thresh a) grp <> [] ->
    pos_rows_of uid movies (pos_items_of (pos_thresh a) grp) = Ok [] ->
    user_rows a movies cand_map pool uid grp g (Ok None) g
| user_sampled g pos_rows hard easy g' :
    pos_items_of (pos_thresh a) grp <> [] ->
    pos_rows_of uid movies (pos_items_of (pos_thresh a) grp) = Ok pos_rows ->
    pos_rows <> [] ->
    sample_negatives a movies cand_map pool uid (seen_of grp) g hard easy g' ->
    user_rows a movies cand_map pool uid grp g (emit_block uid movies pos_rows hard easy) g'.

(** The [for uid, grp in ratings.groupby("userId")] loop: one generator
    threaded through the users in ascending id order; an exception
    aborts the run. *)
Inductive users_loop (a : args) (movies : gmap Z meta) (cand_map : gmap Z (list Z))
    (pool : list Z) : list (Z * list rating_row) -> G -> list feat_row ->
    result (list feat_row) -> Prop :=
| loop_end g rows : users_loop a movies cand_map pool [] g rows (Ok rows)
| loop_skip uid grp gs g g' rows res :
    user_rows a movies cand_map pool uid grp g (Ok None) g' ->
    users_loop a movies cand_map pool gs g' rows res ->
    users_loop a movies cand_map pool ((uid, grp) :: gs) g rows res
| loop_keep uid grp gs g g' block rows res :
    user_rows a movies cand_map pool uid grp g (Ok (Some block)) g' ->
    users_loop a movies cand_map pool gs g' (rows ++ block) res ->
    users_loop a movies cand_map pool ((uid, grp) :: gs) g rows res
| loop_raise uid grp gs g g' rows e :
    user_rows a movies cand_map pool uid grp g (Err e) g' ->
    users_loop a movies cand_map pool ((uid, grp) :: gs) g rows (Err e).

(** [main]: the rows written to the output file, or the exception. *)
Definition build_features (a : args) (ratings : list rating_row)
    (movies : gmap Z meta) (cand_map : gmap Z (list Z))
    (out : result (list feat_row)) : Prop :=
  users_loop a movies cand_map (pop_items ratings) (group_by userId ratings)
             (default_rng (seed a)) [] out.
End Sampler.

(** A concrete generator: a counter, [rand_index g n = g mod n]. *)
#[export] Instance counter_rng : Rng nat.
Proof.
  refine {| default_rng s := Z.to_nat s;
            rand_index g n := (Nat.modulo g n, S g) |}.
  intros g n Hn. simpl. apply Nat.mod_upper_bound. lia.
Defined.

(** A scripted generator: the state is the list of the indices still to
    be drawn (taken modulo the pool size); once it is used up every draw
    is index 0. *)
#[export] Instance script_rng : Rng (list nat) | 10.
Proof.
  refine {| default_rng s := [Z.to_nat s];
            rand_index g n := match g with
                              | [] => (0%nat, [])
                              | i :: g' => (Nat.modulo i n, g')
                              end |}.
  intros [|i g] n Hn; simpl; [lia|]. apply Nat.mod_upper_bound. lia.
Defined.
End BuildFeatures.

(** ** 06_train_lgbm.py: [load_split] *)
Module TrainLGBMLoad.
Import BuildFeatures.

(** [stats = df.groupby("userId")["label"].agg(["sum", "count"])]; the
    label column holds the Python ints written by [make_row], an int64
    column whose sums are exact while they stay within 64 bits. *)
Definition label_sum (df : list feat_row) (u : Z) : Z :=
  zsum (map f_label (List.filter (fun r => f_userId r =? u) df)).
Definition label_count (df : list feat_row) (u : Z) : Z :=
  Z.of_nat (length (List.filter (fun r => f_userId r =? u) df)).

(** [.astype("int32")]: two's-complement wrap-around to 32 bits. *)
Definition int32 (x : Z) : Z := (x + 2 ^ 31) mod 2 ^ 32 - 2 ^ 31.

(** [load_split] after [pd.read_parquet]: keep the rows of the users with
    [0 < sum < count], then the group sizes of
    [df.groupby("userId", sort=False)] (users in order of first
    appearance) cast to [int32], then the assertion, which sums the
    sizes as Python ints. *)
Definition load_split (df : list feat_row) : result (list feat_row * list Z) :=
  let df' := List.filter (fun r => (0 <? label_sum df (f_userId r))
                                   && (label_sum df (f_userId r) <? label_count df (f_userId r))) df in
  let grp_sizes := map (fun u => int32 (Z.of_nat (length (List.filter (fun r => f_userId r =? u) df'))))
                       (unique_Z [] (map f_userId df')) in
  if zsum grp_sizes =? Z.of_nat (length df') then Ok (df', grp_sizes) else Err AssertionError.

(** The columns [lgb_dataset] drops. *)
Definition id_columns : list string := ["userId"%string; "movieId"%string; "label"%string].

(** The column bookkeeping of [lgb_dataset(df, group_sizes, cat_feat_name)]
    on a frame with columns [cols]: [df.drop(columns=...)] raises
    [KeyError] when a dropped column is missing, and
    [feat_names.index(cat_feat_name)] (the first match) raises
    [ValueError] when no feature column has that name.  The conversion
    of the values and the [lgb.Dataset] call are not modelled. *)
Definition lgb_columns (cols : list string) (cat_feat_name : string)
    : result (list string * list nat) :=
  if forallb (fun c => bool_decide (c ∈ cols)) id_columns then
    let feat_names := List.filter (fun c => negb (bool_decide (c ∈ id_columns))) cols in
    match list_find (fun c => c = cat_feat_name) feat_names with
    | Some (i, _) => Ok (feat_names, [i])
    | None => Err ValueError
    end
  else Err KeyError.
End TrainLGBMLoad.

(** ** Concrete inputs used by the examples and counterexamples *)
Module Examples.
Import BuildMF TrainLGBM BuildFeatures.

(** Two users; user 1 has one interaction, user 2 two; item 10 has two. *)
Definition ex_prune_ratings : list rating_row :=
  [mkRating 1 10 4 0; mkRating 2 10 4 0; mkRating 2 20 4 0].

(** The spec's scenario group for user 1: three rows, the single
    positive scored highest. *)
Definition ex_group : list pred_row :=
  [mkPred 1 1 (9#10); mkPred 1 0 (1#2); mkPred 1 0 (1#10)].

(** Item 10 rated three times, item 20 once. *)
Definition ex_pop_ratings : list rating_row :=
  [mkRating 1 10 4 0; mkRating 2 10 4 0; mkRating 3 10 4 0; mkRating 1 20 4 0].

Definition ex_meta : meta := mkMeta 0 0 1 7 100.

(** [--hard-neg 1 --easy-neg 1 --pos-thresh 4 --seed 42]. *)
Definition ex_args : args := mkArgs 1 1 4 42.

(** Metadata for items 5 and 7; user 1's candidate list is [[7]]. *)
Definition ex_movies : gmap Z meta := <[5 := ex_meta]> {[7 := ex_meta]}.
Definition ex_cands : gmap Z (list Z) := {[1 := [7]]}.


(** User 1 rates item 10 five stars; item 10 has metadata. *)
Definition ex_one_pos_ratings : list rating_row := [mkRating 1 10 5 0].
Definition ex_one_pos_movies : gmap Z meta := {[10 := ex_meta]}.

(** User 1 rates item 5 five stars; user 2 rates items 5 and 7, so
    [pop_items] is [[5; 7]]. *)
Definition ex_dup_ratings : list rating_row :=
  [mkRating 1 5 5 0; mkRating 2 5 3 0; mkRating 2 7 3 0].

End Examples.

(** ** Facts about the modelled helpers *)


Lemma filter_filter_andb {A} (f g : A -> bool) (l : list A) :
  List.filter g (List.filter f l) = List.filter (fun x => f x && g x) l.
Proof.
  induction l as [|x l IH]; simpl; [done|].
  destruct (f x); simpl; destruct (g x); simpl; by rewrite ?IH.
Qed.

Lemma filter_ext_In' {A} (f g : A -> bool) (l : list A) :
  (forall x, In x l -> f x = g x) -> List.filter f l = List.filter g l.
Proof.
  induction l as [|x l IH]; intros H; simpl; [done|].
  rewrite (H x (or_introl eq_refl)), IH; [done|].
  intros y Hy. apply H. by right.
Qed.

Lemma filter_none {A} (f : A -> bool) (l : list A) :
  (forall x, In x l -> f x = false) -> List.filter f l = [].
Proof.
  induction l as [|x l IH]; intros H; simpl; [done|].
  rewrite (H x (or_introl eq_refl)). apply IH. intros y Hy. apply H. by right.
Qed.

(** ** Further facts: sorting, de-duplication and grouping *)
Module ExtraFacts.

Section SortFacts.
Context {A K : Type} (key : A -> K) (leb : K -> K -> bool).

Lemma insert_by_perm (x : A) (l : list A) : insert_by key leb x l ≡ₚ x :: l.
Proof.
  induction l as [|y l IH]; simpl; [done|].
  destruct (leb (key x) (key y)); [done|].
  rewrite IH. apply Permutation_swap.
Qed.

Lemma sort_by_perm (l : list A) : sort_by key leb l ≡ₚ l.
Proof.
  induction l as [|x l IH]; simpl; [done|].
  by rewrite insert_by_perm, IH.
Qed.

Hypothesis leb_total : forall a b, leb a b = false -> leb b a = true.

Lemma insert_by_sorted (x : A) (l : list A) :
  Sorted (fun a b => leb (key a) (key b) = true) l ->
  Sorted (fun a b => leb (key a) (key b) = true) (insert_by key leb x l).
Proof.
  induction 1 as [|y l Hs IH Hd]; simpl; [by repeat constructor|].
  destruct (leb (key x) (key y)) eqn:E.
  - by repeat constructor.
  - constructor; [done|].
    destruct Hd as [|z l' Hz]; simpl; [constructor; by apply leb_total|].
    destruct (leb (key x) (key z)); constructor; [by apply leb_total|done].
Qed.

Lemma sort_by_sorted (l : list A) :
  Sorted (fun a b => leb (key a) (key b) = true) (sort_by key leb l).
Proof. induction l; simpl; [constructor|by apply insert_by_sorted]. Qed.
End SortFacts.

Lemma unique_Z_spec (seen l : list Z) (x : Z) :
  In x (unique_Z seen l) <-> In x l /\ ~ In x seen.
Proof.
  revert seen. induction l as [|y l IH]; intros seen; simpl; [tauto|].
  destruct (existsb (Z.eqb y) seen) eqn:E.
  - apply existsb_exists in E as (z & Hz & Hyz). apply Z.eqb_eq in Hyz. subst z.
    rewrite IH. split; [tauto|]. intros [[<-|Hx] Hs]; tauto.
  - assert (~ In y seen) as Hy.
    { intros Hy. assert (existsb (Z.eqb y) seen = true) as E'; [|congruence].
      apply existsb_exists. exists y. split; [done|apply Z.eqb_refl]. }
    simpl. rewrite IH. simpl.
    split; [intros [<-|[Hx Hs]]; tauto|].
    intros [[<-|Hx] Hs]; [by left|].
    destruct (Z.eq_dec y x) as [->|Hne]; [by left|right; tauto].
Qed.

Lemma unique_Z_NoDup (seen l : list Z) : NoDup (unique_Z seen l).
Proof.
  revert seen. induction l as [|y l IH]; intros seen; simpl; [constructor|].
  destruct (existsb (Z.eqb y) seen); [done|].
  constructor; [|done].
  rewrite list_elem_of_In, unique_Z_spec. simpl. tauto.
Qed.

Lemma group_by_In {A} (key : A -> Z) (l : list A) (u : Z) (grp : list A) :
  In (u, grp) (group_by key l) <->
  In u (map key l) /\ grp = List.filter (fun x => key x =? u) l.
Proof.
  unfold group_by. rewrite in_map_iff. split.
  - intros (u' & [= <- <-] & Hu).
    apply list_elem_of_In in Hu. rewrite sort_by_perm in Hu.
    apply list_elem_of_In, unique_Z_spec in Hu. tauto.
  - intros [Hu ->]. exists u. split; [done|].
    apply list_elem_of_In. rewrite sort_by_perm.
    apply list_elem_of_In, unique_Z_spec. simpl. tauto.
Qed.

Lemma existsb_perm {A} (f : A -> bool) (l1 l2 : list A) :
  l1 ≡ₚ l2 -> existsb f l1 = existsb f l2.
Proof.
  induction 1 as [|x l1 l2 _ IH|x y l|l1 l2 l3 _ IH1 _ IH2]; simpl.
  - done.
  - by rewrite IH.
  - by rewrite !orb_assoc, (orb_comm (f y)).
  - congruence.
Qed.

Lemma existsb_filter {A} (p f : A -> bool) (l : list A) :
  existsb f (List.filter p l) = existsb (fun x => p x && f x) l.
Proof. induction l as [|x l IH]; simpl; [done|]. destruct (p x); simpl; by rewrite IH. Qed.

Lemma existsb_group_by {A} (key : A -> Z) (f : A -> bool) (l : list A) :
  existsb (fun ug => existsb f ug.2) (group_by key l) = existsb f l.
Proof.
  apply Bool.eq_iff_eq_true. rewrite !existsb_exists. split.
  - intros ([u grp] & Hg & Hx). apply group_by_In in Hg as [_ ->].
    apply existsb_exists in Hx as (x & Hx & Hf). apply filter_In in Hx. naive_solver.
  - intros (x & Hx & Hf). exists (key x, List.filter (fun y => key y =? key x) l).
    split; [apply group_by_In; split; [by apply in_map|done]|].
    apply existsb_exists. exists x. split; [|done].
    apply filter_In. split; [done|apply Z.eqb_refl].
Qed.

Lemma zsum_app (l1 l2 : list Z) : zsum (l1 ++ l2) = zsum l1 + zsum l2.
Proof. induction l1; simpl; [done|]. unfold zsum in *. simpl. lia. Qed.

Lemma zsum_perm (l1 l2 : list Z) : l1 ≡ₚ l2 -> zsum l1 = zsum l2.
Proof. induction 1; unfold zsum in *; simpl; lia. Qed.

Lemma Sorted_weaken {A} (R1 R2 : A -> A -> Prop) (l : list A) :
  (forall a b, R1 a b -> R2 a b) -> Sorted R1 l -> Sorted R2 l.
Proof.
  intros HR. induction 1 as [|a l _ IH Hd]; constructor; [done|].
  destruct Hd; constructor. by apply HR.
Qed.

Lemma map_nth_seq_self {A} (d : A) (l : list A) :
  map (fun i => nth i l d) (seq 0 (length l)) = l.
Proof.
  induction l as [|x l IH]; [done|]. simpl length. rewrite <- cons_seq, <- seq_shift.
  simpl. rewrite map_map. simpl. by rewrite IH.
Qed.
Lemma Sorted_map_In {A B} (R : A -> A -> Prop) (R' : B -> B -> Prop) (f : A -> B)
    (l : list A) :
  (forall x y, In x l -> In y l -> R x y -> R' (f x) (f y)) -> Sorted R l -> Sorted R' (map f l).
Proof.
  intros HR Hs. induction Hs as [|x l Hs IH Hd]; simpl; constructor.
  - apply IH. intros a b Ha Hb. apply HR; by right.
  - destruct Hd as [|y l' Hy]; simpl; constructor. apply HR; [by left|by right; left|done].
Qed.

Section Take.
Context `{AS : ArgSort}.

(** [take] of an argsort reorders the rows. *)
Lemma argsort_take_perm {A} (d : A) (key : A -> Q) (l : list A) :
  map (fun i => nth i l d) (argsort (map key l)) ≡ₚ l.
Proof.
  rewrite (Permutation_map _ (argsort_perm (map key l))).
  by rewrite length_map, map_nth_seq_self.
Qed.

Lemma argsort_In_lt (xs : list Q) (i : nat) : In i (argsort xs) -> (i < length xs)%nat.
Proof.
  intros Hi. apply list_elem_of_In in Hi. rewrite (argsort_perm xs) in Hi.
  apply list_elem_of_In, in_seq in Hi. lia.
Qed.

(** [take] of the argsort of an integer column lists the rows by
    non-decreasing value of that column. *)
Lemma argsort_take_sorted {A} (d : A) (key : A -> Z) (l : list A) :
  Sorted (fun x y => key x <= key y)
         (map (fun i => nth i l d) (argsort (map (fun x => inject_Z (key x)) l))).
Proof.
  eapply Sorted_map_In; [|apply argsort_sorted].
  intros i j Hi%argsort_In_lt Hj%argsort_In_lt Hij. cbn beta in Hij.
  rewrite length_map in Hi, Hj.
  assert (Hn : forall n, (n < length l)%nat ->
             nth n (map (fun x => inject_Z (key x)) l) 0%Q = inject_Z (key (nth n l d))).
  { intros n Hn. rewrite (nth_indep _ _ (inject_Z (key d))) by (by rewrite length_map).
    apply (map_nth (fun x => inject_Z (key x))). }
  rewrite (Hn i Hi), (Hn j Hj) in Hij. by rewrite Zle_Qle.
Qed.
End Take.

Lemma filter_sublist {A} (f : A -> bool) (l : list A) : List.filter f l `sublist_of` l.
Proof.
  induction l as [|x l IH]; simpl; [constructor|].
  destruct (f x); [by apply sublist_skip|by apply sublist_cons].
Qed.
End ExtraFacts.

Module BuildMFFacts.
Import BuildMF.













End BuildMFFacts.

Module BuildMFExtraFacts.
Import BuildMF BuildMFFacts ExtraFacts.

Lemma enum_insert_lookup (i : nat) (xs : list Z) (m : gmap Z nat) (x : Z) (k : nat) :
  NoDup xs ->
  enum_insert i xs m !! x = Some k <->
  (exists j, xs !! j = Some x /\ k = (i + j)%nat) \/ ((x ∉ xs) /\ m !! x = Some k).
Proof.
  revert i m. induction xs as [|y xs IH]; intros i m Hnd; simpl.
  - split; [intros H; right; split; [apply not_elem_of_nil|done]|].
    intros [(j & Hj & _)|[_ H]]; [done|done].
  - apply NoDup_cons in Hnd as [Hy Hnd]. rewrite IH by done.
    destruct (decide (x = y)) as [->|Hne].
    + rewrite lookup_insert_eq. split.
      * intros [(j & Hj & _)|[_ [= <-]]].
        -- exfalso. apply Hy. by eapply list_elem_of_lookup_2.
        -- left. exists 0%nat. split; [done|lia].
      * intros [([|j] & Hj & ->)|[Hn _]].
        -- right. split; [done|]. f_equal. lia.
        -- exfalso. apply Hy. by eapply list_elem_of_lookup_2.
        -- exfalso. apply Hn. apply list_elem_of_here.
    + rewrite lookup_insert_ne by congruence. split.
      * intros [(j & Hj & ->)|[Hn H]].
        -- left. exists (S j). split; [done|lia].
        -- right. split; [|done]. rewrite elem_of_cons. tauto.
      * intros [([|j] & Hj & ->)|[Hn H]].
        -- simpl in Hj. congruence.
        -- left. exists j. split; [done|lia].
        -- right. split; [|done]. rewrite elem_of_cons in Hn. tauto.
Qed.

Lemma enumerate_map_lookup (xs : list Z) (x : Z) (k : nat) :
  NoDup xs -> enumerate_map xs !! x = Some k <-> xs !! k = Some x.
Proof.
  intros Hnd. unfold enumerate_map. rewrite enum_insert_lookup by done.
  rewrite lookup_empty. split.
  - intros [(j & Hj & ->)|[_ [=]]]. done.
  - intros Hk. left. by exists k.
Qed.

Lemma fold_invert_lookup (l : list (Z * nat)) (acc : gmap nat Z) (v : nat) (k : Z) :
  NoDup (l.*2) ->
  fold_left (fun acc (kv : Z * nat) => <[kv.2 := kv.1]> acc) l acc !! v = Some k <->
  (k, v) ∈ l \/ ((v ∉ l.*2) /\ acc !! v = Some k).
Proof.
  revert acc. induction l as [|[k' v'] l IH]; intros acc Hnd; simpl.
  - split; [intros H; right; split; [apply not_elem_of_nil|done]|].
    intros [H|[_ H]]; [by apply elem_of_nil in H|done].
  - apply NoDup_cons in Hnd as [Hv Hnd]. rewrite IH by done.
    rewrite elem_of_cons, elem_of_cons.
    destruct (decide (v = v')) as [->|Hne].
    + rewrite lookup_insert_eq. split.
      * intros [Hin|[_ [= ->]]]; [|by left; left].
        exfalso. apply Hv. apply list_elem_of_fmap. by exists (k, v').
      * intros [[[= ->]|Hin]|[Hn _]]; [by right|left; done|].
        exfalso. apply Hn. by left.
    + rewrite lookup_insert_ne by congruence. split.
      * intros [Hin|[Hn H]]; [by left; right|right; split; [|done]].
        intros [[= ->]|?]; done.
      * intros [[[= _ ->]|Hin]|[Hn H]]; [done|by left|].
        right. split; [|done]. intros ?. apply Hn. by right.
Qed.

Lemma invert_map_lookup (m : gmap Z nat) (v : nat) (k : Z) :
  (forall k1 k2 w, m !! k1 = Some w -> m !! k2 = Some w -> k1 = k2) ->
  invert_map m !! v = Some k <-> m !! k = Some v.
Proof.
  intros Hinj. unfold invert_map. rewrite fold_invert_lookup.
  - rewrite lookup_empty, elem_of_map_to_list. split; [|by left].
    by intros [?|[_ [=]]].
  - apply NoDup_fmap_2_strong; [|apply NoDup_map_to_list].
    intros [k1 w1] [k2 w2] H1 H2. simpl. intros ->.
    apply elem_of_map_to_list in H1, H2. f_equal. by eapply Hinj.
Qed.



Lemma prune_users_In (min_user_cnt : Z) (rs : list rating_row) (r : rating_row) :
  0 < min_user_cnt -> In r (prune_users min_user_cnt rs) ->
  In r rs /\ min_user_cnt <= count_user rs (userId r).
Proof.
  intros Hm. unfold prune_users. rewrite (proj2 (Z.ltb_lt _ _) Hm).
  intros [Hr Hc]%filter_In. split; [done|]. by apply Z.leb_le.
Qed.

Lemma prune_items_In (min_item_cnt : Z) (rs : list rating_row) (r : rating_row) :
  In r (prune_items min_item_cnt rs) -> In r rs.
Proof. unfold prune_items. destruct (0 <? min_item_cnt); [by intros [? _]%filter_In|done]. Qed.

Lemma keep_known_In (ids : list Z) (rs : list rating_row) (r : rating_row) :
  In r (keep_known ids rs) -> In r rs.
Proof. unfold keep_known. by intros [? _]%filter_In. Qed.
End BuildMFExtraFacts.

Module TrainLGBMFacts.
Import TrainLGBM ExtraFacts.

(** numpy's scalar argsort for arrays of at most 16 elements: an
    insertion sort, which keeps equal values in position order.  Used at
    every length it is one argsort with numpy's contract. *)
Definition numpy_small_argsort : ArgSort.
Proof.
  refine {| argsort xs := sort_by (fun i => nth i xs 0%Q) Qle_bool (seq 0 (length xs)) |}.
  - intros xs. apply sort_by_perm.
  - intros xs. eapply Sorted_weaken; [|apply sort_by_sorted].
    + intros i j Hij. by apply Qle_bool_iff.
    + intros a b Hab. apply Qle_bool_iff. apply Qlt_le_weak, Qnot_le_lt.
      intros Hle. apply Qle_bool_iff in Hle. congruence.
Defined.




Lemma log2R_2 : log2R (INR 2) = 1%R.
Proof.
  unfold log2R. rewrite INR_IZR_INZ. simpl.
  apply Rdiv_diag. apply ln_neq_0; lra.
Qed.

Lemma dcg_from_zeros (i : nat) (l : list Z) :
  Forall (fun r => r = 0) l -> dcg_from i l = 0%R.
Proof.
  intros Hl. revert i. induction Hl as [|r l -> Hl IH]; intros i; simpl; [done|].
  rewrite IH, Rdiv_0_l. lra.
Qed.

Lemma dcg_top_hit (l : list Z) :
  Forall (fun r => r = 0) l -> _dcg (1 :: l) = 1%R.
Proof.
  intros Hl. unfold _dcg. simpl dcg_from.
  rewrite dcg_from_zeros by done. change (1 + 1)%R with (INR 2). rewrite log2R_2.
  rewrite Rdiv_1_r. lra.
Qed.
End TrainLGBMFacts.

Module TrainLGBMExtraFacts.
Import TrainLGBM TrainLGBMLoad BuildFeatures ExtraFacts.

Section WithArgSort.
Context `{AS : ArgSort}.

Lemma rank_order_perm (preds : list Q) : rank_order preds ≡ₚ seq 0 (length preds).
Proof. unfold rank_order. rewrite <- Permutation_rev. apply argsort_perm. Qed.

Lemma length_rank_order (preds : list Q) : length (rank_order preds) = length preds.
Proof. by rewrite (Permutation_length (rank_order_perm preds)), length_seq. Qed.

Lemma length_cumsum_from (acc : Z) (l : list Z) : length (cumsum_from acc l) = length l.
Proof. revert acc. induction l; intros acc; simpl; [done|]. by rewrite IHl. Qed.

Lemma length_arange1 (k : Z) : length (arange1 k) = Z.to_nat k.
Proof. unfold arange1. by rewrite length_map, length_seq. Qed.

Lemma bcast_same {A B C} (f : A -> B -> C) (a : list A) (b : list B) :
  length a = length b -> bcast f a b = Ok (zip_with f a b).
Proof. intros E. unfold bcast. by rewrite E, Nat.eqb_refl. Qed.

Lemma bcast_mismatch {A B C} (f : A -> B -> C) (a : list A) (b : list B) :
  length a <> length b -> (2 <= length a)%nat -> (2 <= length b)%nat ->
  bcast f a b = Err ValueError.
Proof.
  intros E Ha Hb. unfold bcast. rewrite (proj2 (Nat.eqb_neq _ _) E).
  destruct a as [|x [|x' a]]; simpl in Ha; [lia|lia|].
  destruct b as [|y [|y' b]]; simpl in Hb; [lia|lia|done].
Qed.

Lemma bcast_err {A B C} (f : A -> B -> C) (a : list A) (b : list B) e :
  bcast f a b = Err e -> e = ValueError.
Proof.
  unfold bcast. destruct (Nat.eqb _ _); [done|].
  destruct a as [|x [|x' a]]; [destruct b as [|y [|y' b]]| |destruct b as [|y [|y' b]]];
    by intros [= <-].
Qed.

Lemma zsum_hits (y_true : list Z) (preds : list Q) :
  length preds = length y_true ->
  zsum (map (fun i => nth i y_true 0) (rank_order preds)) = zsum y_true.
Proof.
  intros E. rewrite (zsum_perm _ _ (Permutation_map _ (rank_order_perm preds))).
  by rewrite E, map_nth_seq_self.
Qed.

Lemma eval_group_err (k : Z) (g : list pred_row) e :
  eval_group k g = Err e -> e = ValueError.
Proof.
  unfold eval_group, map_at_k, mbind, result_mbind, result_bind.
  destruct (zsum _ =? 0); [done|]. destruct (zsum _ =? 0); [done|].
  destruct (bcast _ _ (arange1 k)) as [p|e'] eqn:E1; [|intros [= <-]; by eapply bcast_err].
  destruct (bcast _ p _) as [w|e'] eqn:E2; [done|intros [= <-]; by eapply bcast_err].
Qed.

Lemma eval_groups_raise (k : Z) (gs : list (Z * list pred_row)) (u : Z) (grp : list pred_row) :
  In (u, grp) gs -> eval_group k grp = Err ValueError -> eval_groups k gs = Err ValueError.
Proof.
  induction gs as [|[u' g] gs IH]; intros Hin He; [done|]. simpl.
  unfold mbind, result_mbind, result_bind.
  destruct Hin as [[= -> ->]|Hin]; [by rewrite He|].
  destruct (eval_group k g) as [s|e] eqn:Eg; [|by apply eval_group_err in Eg as ->].
  by rewrite (IH Hin He).
Qed.

Lemma eval_groups_ok (k : Z) (gs : list (Z * list pred_row)) :
  (forall u grp, In (u, grp) gs -> exists s, eval_group k grp = Ok s) ->
  exists ss, eval_groups k gs = Ok ss.
Proof.
  induction gs as [|[u g] gs IH]; intros Hok; [by exists []|]. simpl.
  destruct (Hok u g (or_introl eq_refl)) as [s Hs].
  destruct IH as [ss Hss]; [intros u' g' Hin; eapply Hok; by right|].
  exists (s :: ss). unfold mbind, result_mbind, result_bind. by rewrite Hs, Hss.
Qed.

Lemma group_member {A} (key : A -> Z) (l : list A) (u : Z) :
  List.filter (fun x => key x =? u) l <> [] ->
  In (u, List.filter (fun x => key x =? u) l) (group_by key l).
Proof.
  intros Hne. apply group_by_In. split; [|done].
  destruct (List.filter _ l) as [|x xs] eqn:E; [done|].
  assert (Hx : In x (List.filter (fun x => key x =? u) l)) by (rewrite E; by left).
  apply filter_In in Hx as [Hx Hk]. apply Z.eqb_eq in Hk as <-. by apply in_map.
Qed.

Lemma zsum_binary (l : list Z) :
  Forall (fun x => x = 0 \/ x = 1) l ->
  (0 < zsum l <-> In 1 l) /\ (zsum l < Z.of_nat (length l) <-> In 0 l).
Proof.
  induction 1 as [|x l Hx Hl [IH1 IH2]]; unfold zsum in *; simpl; [split; split; lia + tauto|].
  assert (0 <= fold_right Z.add 0 l <= Z.of_nat (length l)).
  { clear -Hl. induction Hl as [|y l Hy _ IH]; simpl; lia. }
  destruct Hx as [->| ->]; rewrite ?Nat2Z.inj_succ.
  - split; split.
    + intros Hs. right. apply IH1. lia.
    + intros [Hs|Hs]; [lia|apply IH1 in Hs; lia].
    + intros _. by left.
    + intros _. lia.
  - split; split.
    + intros _. by left.
    + intros _. lia.
    + intros Hs. right. apply IH2. lia.
    + intros [Hs|Hs]; [lia|apply IH2 in Hs; lia].
Qed.

(** Grouping by first appearance accounts for every row once: summing,
    over the keys not in [seen], the number of rows with that key counts
    the rows whose key is not in [seen]. *)
Lemma count_split (key : feat_row -> Z) (seen : list Z) (kx : Z) (l : list feat_row) :
  existsb (Z.eqb kx) seen = false ->
  length (List.filter (fun r => negb (existsb (Z.eqb (key r)) seen)) l) =
  Nat.add (length (List.filter (fun r => key r =? kx) l))
          (length (List.filter (fun r => negb (existsb (Z.eqb (key r)) (kx :: seen))) l)).
Proof.
  intros Hk. induction l as [|y l IH]; simpl; [done|].
  destruct (Z.eqb_spec (key y) kx) as [->|Hne]; simpl.
  - rewrite Hk. simpl. simpl in IH. lia.
  - simpl in IH. destruct (existsb (Z.eqb (key y)) seen); simpl; lia.
Qed.

Lemma group_sizes_sum (key : feat_row -> Z) (seen : list Z) (l : list feat_row) :
  zsum (map (fun u => Z.of_nat (length (List.filter (fun r => key r =? u) l)))
            (unique_Z seen (map key l))) =
  Z.of_nat (length (List.filter (fun r => negb (existsb (Z.eqb (key r)) seen)) l)).
Proof.
  revert seen. induction l as [|x l IH]; intros seen; simpl; [done|].
  assert (Hskip : forall s, (forall u, In u s -> key x <> u) ->
            map (fun u => Z.of_nat (length (List.filter (fun r => key r =? u) (x :: l)))) s =
            map (fun u => Z.of_nat (length (List.filter (fun r => key r =? u) l))) s).
  { intros s Hs. apply map_ext_in. intros u Hu. simpl.
    by rewrite (proj2 (Z.eqb_neq _ _) (Hs u Hu)). }
  destruct (existsb (Z.eqb (key x)) seen) eqn:E; simpl.
  - rewrite Hskip; [apply IH|].
    intros u [_ Hu]%unique_Z_spec <-. apply Hu.
    apply existsb_exists in E as (z & Hz & Hxz). by apply Z.eqb_eq in Hxz as ->.
  - rewrite Z.eqb_refl. unfold zsum in *. simpl. fold (zsum (map (fun u => Z.of_nat (length (List.filter (fun r => key r =? u) (x :: l)))) (unique_Z (key x :: seen) (map key l)))).
    rewrite Hskip; [|intros u [_ Hu]%unique_Z_spec <-; apply Hu; by left].
    unfold zsum in IH. rewrite IH, (count_split key seen (key x) l E). lia.
Qed.
(** A group of at least two but fewer than [k] rows whose [int8] labels
    do not sum to zero makes the MAP block raise: the whole group is the
    top-k slice, so the hits do not sum to zero either, and their cumsum
    is shorter than [np.arange(k) + 1]. *)
Lemma eval_group_short_raises (k : Z) (g : list pred_row) :
  (2 <= length g)%nat -> Z.of_nat (length g) < k ->
  zsum (map (fun r => int8 (p_label r)) g) <> 0 ->
  eval_group k g = Err ValueError.
Proof.
  intros H2 Hk Hs. unfold eval_group. rewrite (proj2 (Z.eqb_neq _ _) Hs).
  assert (Htop : py_take k (rank_order (map p_pred g)) = rank_order (map p_pred g)).
  { unfold py_take. rewrite (proj2 (Z.leb_le 0 k)) by lia.
    apply firstn_all2. rewrite length_rank_order, length_map. lia. }
  rewrite Htop. unfold map_at_k.
  rewrite zsum_hits by (by rewrite !length_map).
  rewrite (proj2 (Z.eqb_neq _ _) Hs).
  rewrite bcast_mismatch; [done|..];
    rewrite ?length_cumsum_from, ?length_arange1, ?length_map, ?length_rank_order, ?length_map;
    lia.
Qed.

Lemma eval_metrics_group_raises (k : Z) (df_pred : list pred_row) (u : Z) :
  eval_group k (List.filter (fun r => p_user r =? u) df_pred) = Err ValueError ->
  eval_metrics k df_pred = Err ValueError.
Proof.
  intros Hg. unfold eval_metrics, mbind, result_mbind, result_bind.
  assert (Hin : In (u, List.filter (fun r => p_user r =? u) df_pred) (group_by p_user df_pred)).
  { apply group_member. intros E. rewrite E in Hg. simpl in Hg. discriminate. }
  by rewrite (eval_groups_raise k _ u _ Hin Hg).
Qed.
End WithArgSort.
End TrainLGBMExtraFacts.

Module BuildFeaturesFacts.
Import BuildMF BuildFeatures.

Section Loop.
Context {G : Type} `{Rng G} `{AS : ArgSort}.

Lemma rng_choice_in (pool : list Z) (g : G) item g' :
  pool <> [] -> rng_choice pool g = (item, g') -> In item pool.
Proof.
  intros Hne. unfold rng_choice.
  pose proof (rand_index_lt g (length pool)) as Hlt.
  destruct (rand_index g (length pool)) as [i g0]. intros [= <- _].
  apply nth_In. apply Hlt. destruct pool; simpl; [done|lia].
Qed.

(** Each accepted draw removes one item from the unseen part of the
    pool, so the loop cannot leave while fewer unseen items remain than
    it still needs. *)
Lemma easy_loop_stuck (pool : list Z) (n : Z) seen out g res g' :
  easy_loop pool n seen out g res g' -> pool <> [] ->
  Z.of_nat (size ((list_to_set pool : gset Z) ∖ seen)) + Z.of_nat (length out) < n ->
  False.
Proof.
  induction 1 as [seen out g Hn|seen out g item g1 res g2 Hlt Hc Hin Hl IH
                 |seen out g item g1 res g2 Hlt Hc Hnin Hl IH]; intros Hne Hsz.
  - lia.
  - by apply IH.
  - apply IH; [done|].
    assert (Hsub : (list_to_set pool : gset Z) ∖ ({[item]} ∪ seen)
                   ⊂ (list_to_set pool : gset Z) ∖ seen).
    { apply rng_choice_in in Hc; [|done].
      split; [set_solver|].
      intros Hs. assert (item ∈ (list_to_set pool : gset Z) ∖ seen) as Hi.
      { apply elem_of_difference. split; [by apply elem_of_list_to_set, list_elem_of_In|done]. }
      apply Hs in Hi. set_solver. }
    apply subset_size in Hsub. rewrite length_app. simpl. lia.
Qed.

Lemma easy_loop_fresh (pool : list Z) (n : Z) seen out g res g' :
  easy_loop pool n seen out g res g' ->
  NoDup out -> (forall x, In x out -> x ∈ seen) ->
  NoDup res /\ (forall x, In x res -> In x out \/ x ∉ seen).
Proof.
  induction 1 as [seen out g Hn|seen out g item g1 res g2 Hlt Hc Hin Hl IH
                 |seen out g item g1 res g2 Hlt Hc Hnin Hl IH]; intros Hnd Hout.
  - split; [done|]. by left.
  - by apply IH.
  - destruct IH as [Hres Hx].
    + apply NoDup_app. split; [done|]. split; [|apply NoDup_singleton].
      intros x Hx1 Hx2%list_elem_of_In. apply list_elem_of_In in Hx1.
      apply Hout in Hx1. simpl in Hx2. destruct Hx2 as [<-|[]]. done.
    + intros x Hx%in_app_or. destruct Hx as [Hx|[<-|[]]]; [set_solver|set_solver].
    + split; [done|]. intros x Hr. destruct (Hx x Hr) as [Hx'|Hx'].
      * apply in_app_or in Hx' as [Hx'|[<-|[]]]; [by left|by right].
      * right. set_solver.
Qed.

Lemma sample_easy_neg_fresh (seen : gset Z) (pool : list Z) (n : Z) g res g' :
  sample_easy_neg seen pool n g res g' ->
  NoDup res /\ (forall x, In x res -> x ∉ seen).
Proof.
  destruct 1 as [_|res g' _ _ Hl].
  - split; [constructor|done].
  - destruct (easy_loop_fresh _ _ _ _ _ _ _ Hl) as [Hnd Hx]; [constructor|done|].
    split; [done|]. intros x Hr. by destruct (Hx x Hr) as [[]|?].
Qed.

Lemma easy_loop_det (pool : list Z) (n : Z) seen out g res1 g1 res2 g2 :
  easy_loop pool n seen out g res1 g1 ->
  easy_loop pool n seen out g res2 g2 -> res1 = res2 /\ g1 = g2.
Proof.
  intros Hl. revert res2 g2.
  induction Hl as [seen out g Hn|seen out g item g' res g'' Hlt Hc Hin Hl IH
                  |seen out g item g' res g'' Hlt Hc Hnin Hl IH];
    intros res2 g2 Hl2; inversion Hl2; subst; try lia;
    try match goal with
        | H1 : rng_choice ?p ?g = _, H2 : rng_choice ?p ?g = _ |- _ =>
            rewrite H1 in H2; injection H2 as <- <-
        end;
    first [done | by apply IH].
Qed.

Lemma sample_easy_neg_det (seen : gset Z) (pool : list Z) (n : Z) g res1 g1 res2 g2 :
  sample_easy_neg seen pool n g res1 g1 ->
  sample_easy_neg seen pool n g res2 g2 -> res1 = res2 /\ g1 = g2.
Proof.
  intros H1 H2.
  destruct H1 as [Hc|res g' Hn Hp Hl]; destruct H2 as [Hc2|res' g'' Hn2 Hp2 Hl2].
  - done.
  - exfalso. tauto.
  - exfalso. tauto.
  - by eapply easy_loop_det.
Qed.

Lemma sample_negatives_det (a : args) movies cand_map pool uid seen g
    hard1 easy1 g1 hard2 easy2 g2 :
  sample_negatives a movies cand_map pool uid seen g hard1 easy1 g1 ->
  sample_negatives a movies cand_map pool uid seen g hard2 easy2 g2 ->
  hard1 = hard2 /\ easy1 = easy2 /\ g1 = g2.
Proof.
  intros H1 H2.
  destruct H1 as [g e1 g1' S1 C1|g e1 g1' f1 g1'' S1 Hh1 He1 F1];
  destruct H2 as [g e2 g2' S2 C2|g e2 g2' f2 g2'' S2 Hh2 He2 F2];
  destruct (sample_easy_neg_det _ _ _ _ _ _ _ _ S1 S2) as [<- <-].
  - done.
  - exfalso. tauto.
  - exfalso. tauto.
  - destruct (sample_easy_neg_det _ _ _ _ _ _ _ _ F1 F2) as [<- <-].
    done.
Qed.

Lemma user_rows_det (a : args) movies cand_map pool uid grp g o1 g1 o2 g2 :
  user_rows a movies cand_map pool uid grp g o1 g1 ->
  user_rows a movies cand_map pool uid grp g o2 g2 -> o1 = o2 /\ g1 = g2.
Proof.
  intros H1 H2.
  destruct H1 as [g P1|g e1 P1 R1|g P1 R1|g pr1 h1 e1 g1' P1 R1 N1 S1];
  destruct H2 as [g P2|g e2 P2 R2|g P2 R2|g pr2 h2 e2 g2' P2 R2 N2 S2];
  try done; try congruence.
  - rewrite R1 in R2. by injection R2 as <-.
  - rewrite R1 in R2. injection R2 as <-.
    destruct (sample_negatives_det _ _ _ _ _ _ _ _ _ _ _ _ _ S1 S2) as (<- & <- & <-).
    done.
Qed.

Lemma users_loop_det (a : args) movies cand_map pool gs g rows r1 r2 :
  users_loop a movies cand_map pool gs g rows r1 ->
  users_loop a movies cand_map pool gs g rows r2 -> r1 = r2.
Proof.
  intros H1. revert r2.
  induction H1 as [g rows|uid grp gs g g' rows res U L IH
                  |uid grp gs g g' block rows res U L IH|uid grp gs g g' rows e U];
    intros r2 H2; inversion H2 as [|? ? ? ? g2 ? ? U2 L2|? ? ? ? g2 ? ? ? U2 L2
                                  |? ? ? ? g2 ? ? U2]; subst;
    try done;
    destruct (user_rows_det _ _ _ _ _ _ _ _ _ _ _ U U2) as [Ho Hg]; subst;
    try congruence.
  - by apply IH.
  - injection Ho as <-. by apply IH.
Qed.

End Loop.




End BuildFeaturesFacts.

Module BuildFeaturesExtraFacts.
Import BuildMF BuildFeatures BuildFeaturesFacts ExtraFacts.

Section Loop.
Context {G : Type} `{Rng G} `{AS : ArgSort}.

Lemma easy_loop_length (pool : list Z) (n : Z) seen out g res g' :
  easy_loop pool n seen out g res g' ->
  Z.of_nat (length res) = Z.max n (Z.of_nat (length out)).
Proof.
  induction 1 as [seen out g Hn|seen out g item g1 res g2 Hlt Hc Hin Hl IH
                 |seen out g item g1 res g2 Hlt Hc Hnin Hl IH]; [lia|done|].
  rewrite IH, length_app. simpl. lia.
Qed.

Lemma easy_loop_in_pool (pool : list Z) (n : Z) seen out g res g' :
  easy_loop pool n seen out g res g' -> pool <> [] ->
  forall x, In x res -> In x out \/ In x pool.
Proof.
  induction 1 as [seen out g Hn|seen out g item g1 res g2 Hlt Hc Hin Hl IH
                 |seen out g item g1 res g2 Hlt Hc Hnin Hl IH]; intros Hne x Hx.
  - by left.
  - by apply IH.
  - destruct (IH Hne x Hx) as [Ho|Hp]; [|by right].
    apply in_app_or in Ho as [Ho|[<-|[]]]; [by left|].
    right. by eapply rng_choice_in.
Qed.

(** What a call of [sample_easy_neg] that returns gives back. *)
Lemma sample_easy_neg_props (seen : gset Z) (pool : list Z) (n : Z) (g : G) (res : list Z) (g' : G) :
  sample_easy_neg seen pool n g res g' ->
  ((pool = [] \/ n <= 0) -> res = [] /\ g' = g) /\
  (pool <> [] -> length res = Z.to_nat n) /\
  NoDup res /\ (forall x, In x res -> In x pool /\ x ∉ seen).
Proof.
  intros Hs. destruct (sample_easy_neg_fresh _ _ _ _ _ _ Hs) as [Hnd Hfr].
  destruct Hs as [Hc|res g' Hn Hp Hl].
  - split; [done|]. split; [intros Hp; destruct Hc as [->|]; done|].
    split; [constructor|intros x []].
  - split; [|split; [|split; [done|]]].
    + intros [Hp'|Hn']; [done|].
      inversion Hl; subst; [done| |]; simpl in *; lia.
    + intros _. pose proof (easy_loop_length _ _ _ _ _ _ _ Hl) as E. simpl in E. lia.
    + intros x Hx. split; [|by apply Hfr].
      by destruct (easy_loop_in_pool _ _ _ _ _ _ _ Hl Hp x Hx) as [[]|?].
Qed.

(** [main]'s per-user step never draws from the generator and never
    yields a block: the user is skipped, or the [make_row] call for the
    first positive with metadata raises. *)
Lemma pos_rows_of_shape (uid : Z) (movies : gmap Z meta) (pos : list rating_row) :
  pos_rows_of uid movies pos =
  if existsb (fun r => bool_decide (is_Some (movies !! movieId r))) pos
  then Err TypeError else Ok [].
Proof.
  induction pos as [|r pos IH]; simpl; [done|].
  destruct (movies !! movieId r) as [m|] eqn:Hm.
  - rewrite bool_decide_eq_true_2 by done. done.
  - rewrite bool_decide_eq_false_2 by (intros [? ?]; congruence). exact IH.
Qed.

Lemma existsb_pos_items (t : Z) (movies : gmap Z meta) (grp : list rating_row) :
  existsb (fun r => bool_decide (is_Some (movies !! movieId r))) (pos_items_of t grp) =
  existsb (fun r => Qle_bool (inject_Z t) (rating r)
                    && bool_decide (is_Some (movies !! movieId r))) grp.
Proof. unfold pos_items_of. by rewrite (existsb_perm _ _ _ (argsort_take_perm _ _ _)), existsb_filter. Qed.

Lemma user_rows_iff (a : args) movies cand_map pool uid grp (g : G) o g' :
  user_rows a movies cand_map pool uid grp g o g' <->
  g' = g /\
  o = if existsb (fun r => Qle_bool (inject_Z (pos_thresh a)) (rating r)
                           && bool_decide (is_Some (movies !! movieId r))) grp
      then Err TypeError else Ok None.
Proof.
  rewrite <- existsb_pos_items. split.
  - intros Hu. destruct Hu as [g Hp|g e Hp Hr|g Hp Hr|g pr h e g1 Hp Hr Hne _];
      try rewrite pos_rows_of_shape in Hr.
    + by rewrite Hp.
    + split; [done|]. by destruct (existsb _ _); [injection Hr as <-|].
    + split; [done|]. by destruct (existsb _ _).
    + exfalso. destruct (existsb _ _); [done|]. by injection Hr as <-.
  - intros [-> ->]. destruct (existsb _ _) eqn:E.
    + apply user_pos_raise; [by intros Hp; rewrite Hp in E|].
      by rewrite pos_rows_of_shape, E.
    + destruct (pos_items_of (pos_thresh a) grp) eqn:Hp.
      * by apply user_no_pos.
      * apply user_no_meta; [by rewrite Hp|]. by rewrite pos_rows_of_shape, Hp, E.
Qed.

Lemma users_loop_iff (a : args) movies cand_map pool gs (g : G) rows res :
  users_loop a movies cand_map pool gs g rows res <->
  res = if existsb (fun ug => existsb (fun r => Qle_bool (inject_Z (pos_thresh a)) (rating r)
                                                && bool_decide (is_Some (movies !! movieId r))) ug.2) gs
        then Err TypeError else Ok rows.
Proof.
  revert g. induction gs as [|[uid grp] gs IH]; intros g; simpl.
  - split; [by inversion 1|intros ->; constructor].
  - split.
    + intros Hl. inversion Hl as [|? ? ? ? g1 ? ? U L|? ? ? ? g1 ? ? ? U L|? ? ? ? g1 ? ? U];
        subst; apply user_rows_iff in U as [-> Ho].
      * destruct (existsb _ grp); [done|]. simpl. by apply IH in L.
      * by destruct (existsb _ grp).
      * by destruct (existsb _ grp); [injection Ho as <-|].
    + intros ->. destruct (existsb _ grp) eqn:E; simpl.
      * eapply loop_raise. apply user_rows_iff. by rewrite E.
      * eapply loop_skip; [apply user_rows_iff; by rewrite E|]. by apply IH.
Qed.
End Loop.

Lemma filter_eqb_NoDup (l : list Z) (x : Z) :
  NoDup l -> In x l -> length (List.filter (Z.eqb x) l) = 1%nat.
Proof.
  induction l as [|y l IH]; intros Hnd Hx; [done|].
  apply NoDup_cons in Hnd as [Hy Hnd]. simpl.
  destruct (Z.eqb_spec x y) as [->|Hne].
  - simpl. rewrite filter_none; [done|].
    intros z Hz. apply Z.eqb_neq. intros ->. apply Hy. by apply list_elem_of_In.
  - destruct Hx as [->|Hx]; [done|]. by apply IH.
Qed.
End BuildFeaturesExtraFacts.

(** ** Claims on 01_build_mf.py *)
Module BuildMFClaims.
Import BuildMF BuildMFFacts Examples.


(** C8 (amended): [main] makes one pass over the raw interactions and
    keeps one exactly when its user has at least [min_user_cnt] raw
    interactions, its item has at least [min_item_cnt] interactions among
    those of the kept users (not among the raw ones), and its item is in
    the metadata; no filter is applied again. *)
Theorem kept_ratings_one_pass (min_user_cnt min_item_cnt : Z)
    (all_item_ids : list Z) (rs : list rating_row) :
  kept_ratings min_user_cnt min_item_cnt all_item_ids rs =
  List.filter (fun r =>
      (min_user_cnt <=? count_user rs (userId r))
      && (min_item_cnt <=? count_item (prune_users min_user_cnt rs) (movieId r))
      && existsb (Z.eqb (movieId r)) all_item_ids) rs.
Proof.
  unfold kept_ratings, keep_known, prune_items.
  assert (Hu : prune_users min_user_cnt rs =
               List.filter (fun r => min_user_cnt <=? count_user rs (userId r)) rs).
  { unfold prune_users. destruct (0 <? min_user_cnt) eqn:E; [done|].
    apply Z.ltb_ge in E. symmetry.
    transitivity (List.filter (fun _ => true) rs).
    - apply filter_ext_In'. intros x _. apply Z.leb_le. unfold count_user. lia.
    - clear. induction rs as [|x l IH]; simpl; by rewrite ?IH. }
  destruct (0 <? min_item_cnt) eqn:E.
  - rewrite Hu, !filter_filter_andb. apply filter_ext_In'. intros x _.
    by rewrite andb_assoc.
  - rewrite Hu, !filter_filter_andb. apply filter_ext_In'. intros x _.
    apply Z.ltb_ge in E.
    replace (min_item_cnt <=? _) with true; [by rewrite andb_true_r|].
    symmetry. apply Z.leb_le. unfold count_item. lia.
Qed.

(** C8 counterexample: with [min_user_cnt = min_item_cnt = 2], user 2
    has two raw interactions and item 10 has two raw interactions, so
    the independent rule keeps [(2, 10)]; the code counts item 10 after
    dropping user 1 and finds one interaction, so it drops [(2, 10)]
    (and everything else). *)
Lemma prune_counts_not_independent :
  spec_independent_prune 2 2 ex_prune_ratings = [mkRating 2 10 4 0] /\
  kept_ratings 2 2 [10; 20] ex_prune_ratings = [].
Proof. split; reflexivity. Qed.
End BuildMFClaims.

(** ** Claims on 06_train_lgbm.py *)
Module TrainLGBMClaims.
Import BuildMF TrainLGBM TrainLGBMFacts TrainLGBMExtraFacts Examples.

(** The scores of the spec's scenario group are distinct, so numpy ranks
    it [0; 1; 2] whatever its sort; here with the small-array argsort. *)
Example ex_group_order :
  rank_order (AS := numpy_small_argsort) (map p_pred ex_group) = [0; 1; 2]%nat.
Proof. reflexivity. Qed.

(** With [k] equal to the group size the same group scores MAP@k =
    NDCG@k = 1: the shapes in the MAP block agree. *)
Lemma ex_group_full_k :
  exists ap nd, eval_group (AS := numpy_small_argsort) 3 ex_group = Ok (ap, nd) /\
                (ap == 1)%Q /\ nd = 1%R.
Proof.
  eexists _, (ndcg_at_k 3 [1; 0; 0] [0; 1; 2]%nat).
  split; [reflexivity|]. split; [vm_compute; reflexivity|].
  unfold ndcg_at_k.
  change (py_take 3 (rev (sort_by (fun x : Z => x) Z.leb [1; 0; 0]))) with [1; 0; 0].
  change (map (fun i => nth i [1; 0; 0] 0) [0; 1; 2]%nat) with [1; 0; 0].
  rewrite dcg_top_hit by repeat constructor.
  destruct (Rlt_dec 0 1); [apply Rdiv_diag; lra|lra].
Qed.

(** A one-row group broadcasts against [np.arange(k)]: its MAP@10 is the
    harmonic number H(10) = 7381/2520, not 1. *)
Lemma single_row_map_is_harmonic :
  exists ap, map_at_k 10 [1] (py_take 10 (rank_order (AS := numpy_small_argsort) [0%Q])) = Ok ap /\
             (ap == 7381 # 2520)%Q.
Proof. eexists. split; [reflexivity|]. vm_compute. reflexivity. Qed.

Section Claims.
Context `{AS : ArgSort}.

(** C1 (code bug): on the spec's size-3 scenario group, whose single
    positive has the highest score, [eval_metrics] with [k = 10] raises
    [ValueError] (whatever order numpy's argsort gives): [cumsum] has 3
    entries and [np.arange(k) + 1] has 10. *)
Lemma eval_metrics_small_group_raises :
  eval_metrics 10 ex_group = Err ValueError.
Proof.
  apply (eval_metrics_group_raises 10 ex_group 1).
  apply eval_group_short_raises; vm_compute; [lia|reflexivity|discriminate].
Qed.

End Claims.

End TrainLGBMClaims.

(** ** Claims on 05_build_features.py *)
Module BuildFeaturesClaims.
Import BuildMF BuildFeatures BuildFeaturesFacts BuildFeaturesExtraFacts TrainLGBMFacts Examples.

(** C3 (amended): [sample_easy_neg] has no exhaustion check.  When the
    pool is not empty and fewer than [n] distinct pool items lie outside
    [seen], no sequence of draws ends the rejection loop: the call never
    returns, and no error is raised instead. *)
Theorem sample_easy_neg_exhausted_diverges {G : Type} `{Rng G}
    (seen : gset Z) (pool : list Z) (n : Z) (g : G) (res : list Z) (g' : G) :
  pool <> [] ->
  Z.of_nat (size ((list_to_set pool : gset Z) ∖ seen)) < n ->
  ~ sample_easy_neg seen pool n g res g'.
Proof.
  intros Hne Hsz Hs. destruct Hs as [[Hn|Hp]|res g' Hn Hp Hl].
  - lia.
  - done.
  - eapply easy_loop_stuck; [exact Hl|done|]. simpl. lia.
Qed.

Lemma sample_easy_neg_exhausted_diverges_witness :
  [1] <> [] /\
  Z.of_nat (size ((list_to_set [1] : gset Z) ∖ {[1]})) < 1 /\
  ~ sample_easy_neg (G := nat) {[1]} [1] 1 0%nat [1] 7%nat.
Proof.
  split; [discriminate|]. split; [vm_compute; reflexivity|].
  apply sample_easy_neg_exhausted_diverges; [discriminate|vm_compute; reflexivity].
Defined.

(** C3 counterexample: with [seen = {1}], pool [[1]] and [n = 1] no run
    of [sample_easy_neg] returns, whatever the generator draws; here with
    the counter generator. *)
Lemma sample_easy_neg_loops_forever :
  ~ exists res g', sample_easy_neg (G := nat) {[1]} [1] 1 0%nat res g'.
Proof.
  intros (res & g' & Hs). destruct Hs as [[Hn|Hp]|res g' Hn Hp Hl]; [done|done|].
  eapply easy_loop_stuck; [exact Hl|done|]. vm_compute. reflexivity.
Qed.

(** C4 (code bug): item 10 has three interactions and item 20 one, so a
    popularity-proportional draw picks 10 with probability 3/4; the code
    calls [rng.choice(pop_items, 1)] without [p], which picks each of the
    two distinct items with probability 1/2. *)
Theorem easy_draw_is_uniform_not_popularity :
  pop_items ex_pop_ratings = [10; 20] /\
  (choice_prob (pop_items ex_pop_ratings) 10 == 1 # 2)%Q /\
  (choice_prob (pop_items ex_pop_ratings) 20 == 1 # 2)%Q /\
  (popularity_prob ex_pop_ratings 10 == 3 # 4)%Q /\
  (popularity_prob ex_pop_ratings 20 == 1 # 4)%Q.
Proof. vm_compute. repeat split; reflexivity. Qed.





Section Claims.
Context `{AS : ArgSort}.

(** C2 (code bug): user 1 rates item 10 five stars and item 10 has
    metadata; [main] calls [make_row(uid, it, 1, meta, ts)] with one
    argument more than [make_row] declares, so the only outcome of the
    run is [TypeError]: no row is written. *)
Theorem positive_row_raises_type_error :
  build_features (G := nat) ex_args ex_one_pos_ratings ex_one_pos_movies ∅ (Err TypeError) /\
  (forall out, build_features (G := nat) ex_args ex_one_pos_ratings ex_one_pos_movies ∅ out ->
               out = Err TypeError).
Proof.
  unfold build_features. split.
  - apply users_loop_iff. reflexivity.
  - intros out Hout. apply users_loop_iff in Hout. rewrite Hout. reflexivity.
Qed.
End Claims.

(** C9: [main] is deterministic, and more: every run finishes, and its
    outcome (the rows in their order, or the exception) depends only on
    the ratings, the metadata and [--pos-thresh].  Two runs on the same
    inputs give the same outcome even with another seed, other
    candidates, another generator or another order among equal
    timestamps: the generator is never drawn from, since no user reaches
    the sampling of lines 137-154 (see C2). *)
Theorem build_features_deterministic {G : Type} `{Rng G} `{AS : ArgSort} (a : args)
    (ratings : list rating_row) (movies : gmap Z meta) (cand_map : gmap Z (list Z)) :
  (exists out, build_features a ratings movies cand_map out) /\
  (forall (G' : Type) (RG' : Rng G') (AS' : ArgSort) (a' : args)
          (cand_map' : gmap Z (list Z)) (out out' : result (list feat_row)),
     pos_thresh a' = pos_thresh a ->
     build_features (G := G) (AS := AS) a ratings movies cand_map out ->
     build_features (G := G') (AS := AS') a' ratings movies cand_map' out' ->
     out = out').
Proof.
  unfold build_features. split.
  - eexists. apply users_loop_iff. reflexivity.
  - intros G' RG' AS' a' cand_map' out out' Ha Ho Ho'.
    apply users_loop_iff in Ho, Ho'. rewrite Ho, Ho', Ha. reflexivity.
Qed.

(** Two runs of [main] on [ex_dup_ratings]: seed 42 with the counter
    generator, and seed 7 with a scripted generator and no candidates. *)
Lemma build_features_deterministic_witness :
  exists out,
    build_features (G := nat) (AS := numpy_small_argsort) ex_args ex_dup_ratings ex_movies
      ex_cands out /\
    (forall out', build_features (G := list nat) (AS := numpy_small_argsort) (mkArgs 1 1 4 7)
                    ex_dup_ratings ex_movies ∅ out' -> out = out').
Proof.
  destruct (build_features_deterministic (G := nat) (AS := numpy_small_argsort) ex_args
              ex_dup_ratings ex_movies ex_cands) as [[out Ho] Hdet].
  exists out. split; [exact Ho|].
  intros out' Ho'. exact (Hdet (list nat) script_rng numpy_small_argsort (mkArgs 1 1 4 7) ∅
                            out out' eq_refl Ho Ho').
Defined.



End BuildFeaturesClaims.

(** ** Further properties of 01_build_mf.py *)
Module BuildMFExtras.
Import BuildMF ExtraFacts BuildMFFacts BuildMFExtraFacts.

(** The index maps of [main] number ids by first appearance: [user2row]
    gives each user of the kept ratings the position of its first row
    among the distinct users, and [item2col] gives each metadata id the
    position of its first row in the metadata, whether or not a kept
    rating uses it. *)
Theorem index_maps_first_appearance (kept : list rating_row) (raw_item_ids : list Z)
    (u x : Z) (i j : nat) :
  (user2row_of kept !! u = Some i <-> unique_Z [] (map userId kept) !! i = Some u) /\
  (enumerate_map (item_ids_of raw_item_ids) !! x = Some j <->
   item_ids_of raw_item_ids !! j = Some x).
Proof.
  split; apply enumerate_map_lookup, unique_Z_NoDup.
Qed.

(** The reverse maps [row2user] and [col2item] written to the mappings
    file are exact inverses of [user2row] and [item2col]. *)
Theorem reverse_maps_invert (kept : list rating_row) (raw_item_ids : list Z)
    (u x : Z) (i j : nat) :
  (invert_map (user2row_of kept) !! i = Some u <-> user2row_of kept !! u = Some i) /\
  (invert_map (enumerate_map (item_ids_of raw_item_ids)) !! j = Some x <->
   enumerate_map (item_ids_of raw_item_ids) !! x = Some j).
Proof.
  assert (Hinj : forall ids : list Z, forall k1 k2 w,
            enumerate_map (unique_Z [] ids) !! k1 = Some w ->
            enumerate_map (unique_Z [] ids) !! k2 = Some w -> k1 = k2).
  { intros ids k1 k2 w H1 H2.
    apply enumerate_map_lookup in H1, H2; [|apply unique_Z_NoDup..]. congruence. }
  split; apply invert_map_lookup, Hinj.
Qed.

(** With [--min-user-cnt] positive, a user with fewer raw interactions
    than the threshold never gets a row of the matrix. *)
Theorem pruned_user_has_no_row (min_user_cnt min_item_cnt : Z) (raw_item_ids : list Z)
    (ratings : list rating_row) (u : Z) :
  0 < min_user_cnt ->
  is_Some (user2row_of (kept_ratings min_user_cnt min_item_cnt (item_ids_of raw_item_ids) ratings) !! u) ->
  min_user_cnt <= count_user ratings u.
Proof.
  intros Hm [i Hi]. unfold user2row_of in Hi.
  apply enumerate_map_lookup in Hi; [|apply unique_Z_NoDup].
  apply list_elem_of_lookup_2, list_elem_of_In, unique_Z_spec in Hi as [Hu _].
  apply in_map_iff in Hu as (r & <- & Hr).
  unfold kept_ratings in Hr. apply keep_known_In, prune_items_In in Hr.
  by apply prune_users_In in Hr as [_ Hc].
Qed.


Lemma pruned_user_has_no_row_witness :
  0 < 2 /\
  is_Some (user2row_of (kept_ratings 2 0 (item_ids_of [10; 20]) Examples.ex_prune_ratings) !! 2) /\
  2 <= count_user Examples.ex_prune_ratings 2.
Proof.
  assert (H1 : 0 < 2) by lia.
  assert (H2 : is_Some (user2row_of (kept_ratings 2 0 (item_ids_of [10; 20])
                                       Examples.ex_prune_ratings) !! 2))
    by (vm_compute; eexists; reflexivity).
  split; [exact H1|]. split; [exact H2|].
  exact (pruned_user_has_no_row 2 0 [10; 20] Examples.ex_prune_ratings 2 H1 H2).
Defined.
End BuildMFExtras.

(** ** Further properties of 05_build_features.py *)
Module BuildFeaturesExtras.
Import BuildMF BuildFeatures BuildFeaturesFacts ExtraFacts BuildFeaturesExtraFacts.

(** What a call of [sample_easy_neg] that returns gives back: nothing and
    an untouched generator when the pool is empty or [n <= 0], otherwise
    exactly [n] pairwise distinct pool items outside [seen]. *)
Theorem sample_easy_neg_shape {G : Type} `{Rng G}
    (seen : gset Z) (pool : list Z) (n : Z) (g : G) (res : list Z) (g' : G) :
  sample_easy_neg seen pool n g res g' ->
  ((pool = [] \/ n <= 0) -> res = [] /\ g' = g) /\
  (pool <> [] -> length res = Z.to_nat n) /\
  NoDup res /\ (forall x, In x res -> In x pool /\ x ∉ seen).
Proof. apply sample_easy_neg_props. Qed.

(** [pop_items] lists every rated item exactly once, by non-increasing
    number of ratings. *)
Theorem pop_items_distinct_by_count (ratings : list rating_row) :
  NoDup (pop_items ratings) /\
  (forall x, In x (pop_items ratings) <-> In x (map movieId ratings)) /\
  Sorted (fun a b => count_item ratings b <= count_item ratings a) (pop_items ratings).
Proof.
  unfold pop_items. split; [|split].
  - rewrite sort_by_perm. apply unique_Z_NoDup.
  - intros x. rewrite <- list_elem_of_In, sort_by_perm, list_elem_of_In, unique_Z_spec.
    simpl. tauto.
  - eapply Sorted_weaken; [|apply sort_by_sorted].
    + simpl. intros a b Hab. by apply Z.leb_le.
    + intros a b Hab. apply Z.leb_gt in Hab. apply Z.leb_le. lia.
Qed.

(** Every easy-negative draw picks each rated item with the same
    probability, one over the number of distinct rated items, whatever
    its number of ratings. *)
Theorem easy_draw_uniform (ratings : list rating_row) (x : Z) :
  In x (map movieId ratings) ->
  (choice_prob (pop_items ratings) x ==
   1 / inject_Z (Z.of_nat (length (unique_Z [] (map movieId ratings)))))%Q.
Proof.
  intros Hx. destruct (pop_items_distinct_by_count ratings) as (Hnd & Hin & _).
  unfold choice_prob. rewrite filter_eqb_NoDup by (done || by apply Hin).
  unfold pop_items. rewrite (Permutation_length (sort_by_perm _ _ _)). reflexivity.
Qed.

(** [pos_items] holds the user's ratings at or above the threshold, in
    non-decreasing timestamp order. *)
Theorem pos_items_by_timestamp `{AS : ArgSort} (pos_thresh : Z) (grp : list rating_row) :
  pos_items_of pos_thresh grp ≡ₚ
    List.filter (fun r => Qle_bool (inject_Z pos_thresh) (rating r)) grp /\
  Sorted (fun r1 r2 => timestamp r1 <= timestamp r2) (pos_items_of pos_thresh grp).
Proof.
  unfold pos_items_of. split; [apply argsort_take_perm|].
  apply (argsort_take_sorted _ timestamp).
Qed.

(** The outcome of [main] on any input, for any generator: it writes no
    row at all.  It raises [TypeError] when some rating reaches the
    threshold and its item has metadata, and otherwise finishes with an
    empty table; the seed, the candidates and the sampling never matter. *)
Theorem build_features_outcome {G : Type} `{Rng G} `{AS : ArgSort} (a : args)
    (ratings : list rating_row) (movies : gmap Z meta) (cand_map : gmap Z (list Z))
    (out : result (list feat_row)) :
  build_features a ratings movies cand_map out <->
  out = if existsb (fun r => Qle_bool (inject_Z (pos_thresh a)) (rating r)
                             && bool_decide (is_Some (movies !! movieId r))) ratings
        then Err TypeError else Ok [].
Proof. unfold build_features. by rewrite users_loop_iff, existsb_group_by. Qed.

(** A run of [sample_easy_neg] with a scripted generator: from
    [[10; 20; 30]] with 20 seen, the draws give 10 (taken), 10 (already
    taken, drawn again), 20 (seen, drawn again) and 30 (taken). *)
Lemma ex_script_run :
  sample_easy_neg (G := list nat) {[20]} [10; 20; 30] 2 [0; 0; 1; 2]%nat [10; 30] [].
Proof.
  apply sample_run; [discriminate|discriminate|].
  eapply (easy_take _ _ _ _ _ 10 [0; 1; 2]%nat); [simpl; lia|reflexivity|set_solver|].
  eapply (easy_again _ _ _ _ _ 10 [1; 2]%nat); [simpl; lia|reflexivity|set_solver|].
  eapply (easy_again _ _ _ _ _ 20 [2]%nat); [simpl; lia|reflexivity|set_solver|].
  eapply (easy_take _ _ _ _ _ 30 []); [simpl; lia|reflexivity|set_solver|].
  apply easy_done. simpl. lia.
Qed.

Lemma sample_easy_neg_shape_witness :
  sample_easy_neg (G := list nat) {[20]} [10; 20; 30] 2 [0; 0; 1; 2]%nat [10; 30] [] /\
  (([10; 20; 30] = [] \/ 2 <= 0) -> [10; 30] = [] /\ ([] : list nat) = [0; 0; 1; 2]%nat) /\
  ([10; 20; 30] <> [] -> length [10; 30] = Z.to_nat 2) /\
  NoDup [10; 30] /\ (forall x, In x [10; 30] -> In x [10; 20; 30] /\ x ∉ ({[20]} : gset Z)).
Proof. split; [exact ex_script_run|exact (sample_easy_neg_shape _ _ _ _ _ _ ex_script_run)]. Defined.

Lemma easy_draw_uniform_witness :
  In 20 (map movieId Examples.ex_pop_ratings) /\
  (choice_prob (pop_items Examples.ex_pop_ratings) 20 ==
   1 / inject_Z (Z.of_nat (length (unique_Z [] (map movieId Examples.ex_pop_ratings)))))%Q.
Proof.
  assert (Hx : In 20 (map movieId Examples.ex_pop_ratings)) by (simpl; tauto).
  split; [exact Hx|exact (easy_draw_uniform _ _ Hx)].
Defined.
End BuildFeaturesExtras.

(** ** Further properties of 06_train_lgbm.py *)
Module TrainLGBMExtras.
Import TrainLGBM TrainLGBMLoad BuildFeatures ExtraFacts TrainLGBMFacts TrainLGBMExtraFacts.

Section WithArgSort.
Context `{AS : ArgSort}.


(** [eval_metrics] raises [ValueError] as soon as one user has at least
    two but fewer than [k] rows and its labels, read as [int8], do not
    sum to zero: the whole group is the top-k slice, so its hits do not
    sum to zero either, and their cumsum cannot be broadcast against
    [np.arange(k) + 1]. *)
Theorem eval_metrics_short_group_raises (k : Z) (df_pred : list pred_row) (u : Z) :
  let g := List.filter (fun r => p_user r =? u) df_pred in
  (2 <= length g)%nat -> Z.of_nat (length g) < k ->
  zsum (map (fun r => int8 (p_label r)) g) <> 0 ->
  eval_metrics k df_pred = Err ValueError.
Proof.
  intros g H2 Hk Hs. apply (eval_metrics_group_raises k df_pred u).
  by apply eval_group_short_raises.
Qed.

(** With [0 <= k], [eval_metrics] returns a result whenever every user
    has at least [k] rows. *)
Theorem eval_metrics_long_groups_ok (k : Z) (df_pred : list pred_row) :
  0 <= k ->
  (forall r, In r df_pred ->
     k <= Z.of_nat (length (List.filter (fun r' => p_user r' =? p_user r) df_pred))) ->
  exists s, eval_metrics k df_pred = Ok s.
Proof.
  intros Hk Hlong.
  assert (Hg : forall u g, In (u, g) (group_by p_user df_pred) -> exists s, eval_group k g = Ok s).
  { intros u g [Hu ->]%group_by_In.
    apply in_map_iff in Hu as (r & <- & Hr). specialize (Hlong r Hr).
    set (g := List.filter (fun r' => p_user r' =? p_user r) df_pred) in *.
    unfold eval_group. destruct (zsum (map (fun r => int8 (p_label r)) g) =? 0); [by eexists|].
    set (topk := py_take k (rank_order (map p_pred g))).
    assert (Hlen : length topk = Z.to_nat k).
    { unfold topk, py_take. rewrite (proj2 (Z.leb_le 0 k)) by lia.
      rewrite length_firstn, length_rank_order, length_map. lia. }
    unfold map_at_k, mbind, result_mbind, result_bind.
    destruct (zsum _ =? 0); [by eexists|].
    rewrite bcast_same by (by rewrite length_cumsum_from, length_arange1, length_map).
    rewrite bcast_same; [by eexists|].
    rewrite length_zip_with, length_cumsum_from, length_arange1, !length_map. lia. }
  destruct (eval_groups_ok k _ Hg) as [ss Hss].
  unfold eval_metrics, mbind, result_mbind, result_bind. rewrite Hss. by eexists.
Qed.
End WithArgSort.

(** On a frame of fewer than 2^31 rows the assertion of [load_split]
    never fails: it keeps the rows of a set of users, returns one
    positive size per kept user, and the sizes add up to the number of
    kept rows.  This holds whatever rule picks the kept users. *)
Theorem load_split_sizes (df : list feat_row) :
  Z.of_nat (length df) < 2 ^ 31 ->
  exists kept sizes,
    load_split df = Ok (kept, sizes) /\
    (exists keep : Z -> bool, kept = List.filter (fun r => keep (f_userId r)) df) /\
    length sizes = length (unique_Z [] (map f_userId kept)) /\
    Forall (fun s => 0 < s) sizes /\
    zsum sizes = Z.of_nat (length kept).
Proof.
  intros Hdf. unfold load_split.
  set (keep := fun u => (0 <? label_sum df u) && (label_sum df u <? label_count df u)).
  set (kept := List.filter _ df).
  assert (Hkept : kept = List.filter (fun r => keep (f_userId r)) df) by reflexivity.
  assert (Hsmall : forall u, Z.of_nat (length (List.filter (fun r => f_userId r =? u) kept)) < 2 ^ 31).
  { intros u. eapply Z.le_lt_trans; [|exact Hdf]. apply inj_le.
    etrans; [apply sublist_length, filter_sublist|].
    apply sublist_length, filter_sublist. }
  set (sizes := map _ (unique_Z [] (map f_userId kept))).
  assert (Hsz : sizes = map (fun u => Z.of_nat (length (List.filter (fun r => f_userId r =? u) kept)))
                            (unique_Z [] (map f_userId kept))).
  { unfold sizes. apply map_ext. intros u. unfold int32.
    rewrite Z.mod_small; [lia|]. specialize (Hsmall u). lia. }
  assert (Hsum : zsum sizes = Z.of_nat (length kept)).
  { rewrite Hsz. rewrite group_sizes_sum. simpl. do 2 f_equal.
    clear. induction kept as [|x l IH]; simpl; congruence. }
  rewrite (proj2 (Z.eqb_eq _ _) Hsum). exists kept, sizes.
  split; [done|]. split; [by exists keep|].
  split; [by unfold sizes; rewrite length_map|]. split; [|done].
  rewrite Hsz. apply Forall_forall. intros s Hs.
  apply list_elem_of_In, in_map_iff in Hs as (u & <- & Hu).
  apply unique_Z_spec in Hu as [Hu _]. apply in_map_iff in Hu as (r & <- & Hr).
  destruct (List.filter (fun r' => f_userId r' =? f_userId r) kept) eqn:E.
  - assert (In r (List.filter (fun r' => f_userId r' =? f_userId r) kept)) as Hin.
    { apply filter_In. split; [done|apply Z.eqb_refl]. }
    by rewrite E in Hin.
  - simpl. lia.
Qed.

(** With 0/1 labels, [load_split] keeps exactly the rows of the users
    that have at least one positive and at least one negative row. *)
Theorem load_split_keeps_mixed_users (df kept : list feat_row) (sizes : list Z) :
  (forall r, In r df -> f_label r = 0 \/ f_label r = 1) ->
  load_split df = Ok (kept, sizes) ->
  forall r, In r kept <->
    In r df /\
    (exists p, In p df /\ f_userId p = f_userId r /\ f_label p = 1) /\
    (exists q, In q df /\ f_userId q = f_userId r /\ f_label q = 0).
Proof.
  intros Hbin Hls r. unfold load_split in Hls.
  destruct (zsum _ =? _) in Hls; [|done]. injection Hls as <- _.
  assert (Hlab : forall u, Forall (fun x => x = 0 \/ x = 1)
                   (map f_label (List.filter (fun r' => f_userId r' =? u) df))).
  { intros u. apply Forall_forall. intros x Hx.
    apply list_elem_of_In, in_map_iff in Hx as (p & <- & Hp).
    apply filter_In in Hp as [Hp _]. by apply Hbin. }
  assert (Hex : forall u b, In b (map f_label (List.filter (fun r' => f_userId r' =? u) df)) <->
                  exists p, In p df /\ f_userId p = u /\ f_label p = b).
  { intros u b. rewrite in_map_iff. split.
    - intros (p & <- & Hp). apply filter_In in Hp as [Hp Hu]. apply Z.eqb_eq in Hu.
      by exists p.
    - intros (p & Hp & Hu & <-). exists p. split; [done|].
      apply filter_In. split; [done|]. by apply Z.eqb_eq. }
  destruct (zsum_binary _ (Hlab (f_userId r))) as [H1 H0].
  rewrite filter_In, andb_true_iff, Z.ltb_lt, Z.ltb_lt.
  unfold label_sum, label_count. rewrite H1, <- (length_map f_label), H0, !Hex.
  tauto.
Qed.

Lemma eval_metrics_short_group_raises_witness :
  Nat.le 2 (length (List.filter (fun r => p_user r =? 1) Examples.ex_group)) /\
  Z.of_nat (length (List.filter (fun r => p_user r =? 1) Examples.ex_group)) < 10 /\
  zsum (map (fun r => int8 (p_label r)) (List.filter (fun r => p_user r =? 1) Examples.ex_group)) <> 0 /\
  eval_metrics (AS := numpy_small_argsort) 10 Examples.ex_group = Err ValueError.
Proof.
  assert (H1 : Nat.le 2 (length (List.filter (fun r => p_user r =? 1) Examples.ex_group)))
    by (vm_compute; lia).
  assert (H2 : Z.of_nat (length (List.filter (fun r => p_user r =? 1) Examples.ex_group)) < 10)
    by (vm_compute; reflexivity).
  assert (H3 : zsum (map (fun r => int8 (p_label r))
                         (List.filter (fun r => p_user r =? 1) Examples.ex_group)) <> 0)
    by (vm_compute; discriminate).
  split; [exact H1|]. split; [exact H2|]. split; [exact H3|].
  exact (eval_metrics_short_group_raises (AS := numpy_small_argsort) 10 Examples.ex_group 1 H1 H2 H3).
Defined.

Lemma eval_metrics_long_groups_ok_witness :
  0 <= 3 /\
  (forall r, In r Examples.ex_group ->
     3 <= Z.of_nat (length (List.filter (fun r' => p_user r' =? p_user r) Examples.ex_group))) /\
  exists s, eval_metrics (AS := numpy_small_argsort) 3 Examples.ex_group = Ok s.
Proof.
  assert (H1 : 0 <= 3) by lia.
  assert (H2 : forall r, In r Examples.ex_group ->
     3 <= Z.of_nat (length (List.filter (fun r' => p_user r' =? p_user r) Examples.ex_group))).
  { intros r Hr. simpl in Hr. destruct Hr as [<-|[<-|[<-|[]]]]; vm_compute; discriminate. }
  split; [exact H1|]. split; [exact H2|].
  exact (eval_metrics_long_groups_ok (AS := numpy_small_argsort) 3 Examples.ex_group H1 H2).
Defined.

Lemma load_split_sizes_witness :
  let df := [mkRow 1 10 1 0 0 0 0 0; mkRow 1 11 0 0 0 0 0 0; mkRow 2 10 1 0 0 0 0 0] in
  Z.of_nat (length df) < 2 ^ 31 /\
  exists kept sizes,
    load_split df = Ok (kept, sizes) /\
    (exists keep : Z -> bool, kept = List.filter (fun r => keep (f_userId r)) df) /\
    length sizes = length (unique_Z [] (map f_userId kept)) /\
    Forall (fun s => 0 < s) sizes /\
    zsum sizes = Z.of_nat (length kept).
Proof.
  intros df. assert (H : Z.of_nat (length df) < 2 ^ 31) by (vm_compute; reflexivity).
  split; [exact H|exact (load_split_sizes df H)].
Defined.

Lemma load_split_keeps_mixed_users_witness :
  let df := [mkRow 1 10 1 0 0 0 0 0; mkRow 1 11 0 0 0 0 0 0; mkRow 2 10 1 0 0 0 0 0] in
  (forall r, In r df -> f_label r = 0 \/ f_label r = 1) /\
  load_split df = Ok ([mkRow 1 10 1 0 0 0 0 0; mkRow 1 11 0 0 0 0 0 0], [2]) /\
  (forall r, In r [mkRow 1 10 1 0 0 0 0 0; mkRow 1 11 0 0 0 0 0 0] <->
    In r df /\
    (exists p, In p df /\ f_userId p = f_userId r /\ f_label p = 1) /\
    (exists q, In q df /\ f_userId q = f_userId r /\ f_label q = 0)).
Proof.
  intros df.
  assert (H1 : forall r, In r df -> f_label r = 0 \/ f_label r = 1).
  { intros r Hr. simpl in Hr. destruct Hr as [<-|[<-|[<-|[]]]]; simpl; lia. }
  assert (H2 : load_split df = Ok ([mkRow 1 10 1 0 0 0 0 0; mkRow 1 11 0 0 0 0 0 0], [2]))
    by (vm_compute; reflexivity).
  split; [exact H1|]. split; [exact H2|].
  exact (load_split_keeps_mixed_users _ _ _ H1 H2).
Defined.
(** On a frame that has the id and label columns, [lgb_dataset] keeps
    the other columns in frame order as features, and the categorical
    index points at the first feature column with the given name; when
    the name is missing, or is one of the dropped columns, it raises
    [ValueError]. *)
Theorem lgb_dataset_categorical_index (cols : list string) (cat : string) :
  (forall c, In c id_columns -> In c cols) ->
  (exists feat i,
     lgb_columns cols cat = Ok (feat, [i]) /\
     feat `sublist_of` cols /\
     (forall c, In c feat <-> In c cols /\ ~ In c id_columns) /\
     feat !! i = Some cat /\ (forall j, (j < i)%nat -> feat !! j <> Some cat))
  \/ (lgb_columns cols cat = Err ValueError /\ (~ In cat cols \/ In cat id_columns)).
Proof.
  intros Hid. unfold lgb_columns.
  assert (Hall : forallb (fun c => bool_decide (c ∈ cols)) id_columns = true).
  { apply forallb_forall. intros c Hc. apply bool_decide_eq_true, list_elem_of_In.
    by apply Hid. }
  rewrite Hall.
  set (feat := List.filter (fun c => negb (bool_decide (c ∈ id_columns))) cols).
  assert (Hfeat : forall c, In c feat <-> In c cols /\ ~ In c id_columns).
  { intros c. unfold feat. rewrite filter_In, negb_true_iff, bool_decide_eq_false,
      list_elem_of_In. done. }
  destruct (list_find (fun c => c = cat) feat) as [[i x]|] eqn:E.
  - left. apply list_find_Some in E as (Hi & -> & Hlt).
    exists feat, i. split; [done|]. split; [apply filter_sublist|].
    split; [done|]. split; [done|].
    intros j Hj Hc. by apply (Hlt j cat Hc Hj).
  - right. split; [done|]. apply list_find_None in E.
    destruct (in_dec (fun x y : string => decide (x = y)) cat id_columns) as [?|Hn]; [by right|left].
    intros Hc. assert (In cat feat) as Hf by (apply Hfeat; tauto).
    rewrite Forall_forall in E. apply (E cat); [by apply list_elem_of_In|done].
Qed.

Lemma lgb_dataset_categorical_index_witness :
  (forall c, In c id_columns -> In c feat_row_columns) /\
  ((exists feat i,
     lgb_columns feat_row_columns "lang_idx"%string = Ok (feat, [i]) /\
     feat `sublist_of` feat_row_columns /\
     (forall c, In c feat <-> In c feat_row_columns /\ ~ In c id_columns) /\
     feat !! i = Some "lang_idx"%string /\
     (forall j, (j < i)%nat -> feat !! j <> Some "lang_idx"%string))
   \/ (lgb_columns feat_row_columns "lang_idx"%string = Err ValueError /\
        (~ In "lang_idx"%string feat_row_columns \/ In "lang_idx"%string id_columns))).
Proof.
  assert (H1 : forall c, In c id_columns -> In c feat_row_columns).
  { intros c Hc. simpl in Hc. simpl. tauto. }
  split; [exact H1|]. exact (lgb_dataset_categorical_index _ _ H1).
Defined.
End TrainLGBMExtras.
